(** * currency_conversion.py: the rate store and the conversion arithmetic

    A shallow embedding of the class [CurrencyConverter] of
    src/currency_conversion.py, and the properties of it that the
    specification states.

    - Python floats are IEEE 754 binary64 values: Rocq's primitive [float],
      whose operations [FloatAxioms] specifies against [SpecFloat].  The
      integers that occur as rates (15600 in the default table, 1 in a
      JSON document) are embedded as the float of the same value, which is
      what Python's mixed arithmetic makes of an integer below 2^53.
    - The dict [exchange_rates] is a [gmap string float]; JSON documents
      are read through the keys the code subscripts, each of which may be
      missing, with values of the types the code expects.
    - A method that touches the object, the cache file, the clock, the
      network or the console is a computation in a state-and-exception
      monad [M] over a [world].  An exception leaves in place what was
      assigned before it, as in Python.
    - The clock and the rate provider are oracles inside the world: the
      n-th call of [datetime.now()] reads [clock n], the n-th HTTP request
      is answered by [provider n].
    - Text is UTF-8: [str.upper] is the full uppercase mapping of the
      Unicode character database on the code points of a text.
    - The library calls ([round], [str.upper], [format], [json],
      [datetime], [requests], [load_dotenv]) follow their documented
      behaviour.  [main] runs on the finite list of the lines typed. *)

From Stdlib Require Import ZArith Lia Bool Ascii String List DecimalString.
From Stdlib Require Import Floats.
From stdpp Require Import gmap strings.

Set Warnings "-inexact-float".

Local Open Scope Z_scope.

(* ================================================================== *)
(** * Part I: definitions *)
(* ================================================================== *)

(** ** Exceptions and results *)

(** The exception classes that the modelled code can raise or meet.  All
    of them derive from Python's [Exception]. *)
Inductive exn : Type :=
  | ValueError (msg : string)      (* also json.JSONDecodeError, strptime *)
  | KeyError (key : string)
  | TypeError
  | ZeroDivisionError
  | OSError
  | RequestException               (* requests.exceptions.RequestException *)
  | Exception_ (msg : string).     (* raise Exception("...") *)

Inductive result (A : Type) : Type :=
  | Ok (a : A)
  | Raise (e : exn).
Arguments Ok {A} a.
Arguments Raise {A} e.

(** The message of the [ValueError] raised by [convert]: the spec's
    UnsupportedCurrency condition. *)
Definition UnsupportedCurrency : exn := ValueError "Mata uang tidak didukung".

Definition is_RequestException (e : exn) : bool :=
  match e with RequestException => true | _ => false end.

(** [except Exception] catches every modelled class. *)
Definition is_Exception (e : exn) : bool := true.

(** ** Python builtins used by [convert] *)

(** *** Text

    A Python [str] is a sequence of Unicode code points.  A [string] here
    holds the UTF-8 bytes of the text, so an ASCII character is one byte
    and a literal of this file is the text it shows.  A byte that begins
    no well-formed sequence stands for itself, as under Python's
    [surrogateescape] handler: it decodes to U+DC80..U+DCFF and encodes
    back to the byte. *)
Definition byte_value (a : ascii) : Z := Z.of_N (N_of_ascii a).
Definition byte_of (b : Z) : ascii := ascii_of_N (Z.to_N b).

(** A continuation byte, 0x80..0xBF. *)
Definition continuation (b : Z) : bool := (128 <=? b) && (b <? 192).

(** The code point of a well-formed sequence of two, three or four bytes:
    no overlong form, no surrogate, nothing above U+10FFFF. *)
Definition two_bytes (b0 b1 : Z) : option Z :=
  if continuation b1 && ((194 <=? b0) && (b0 <? 224))
  then Some ((b0 - 192) * 64 + (b1 - 128))
  else None.

Definition three_bytes (b0 b1 b2 : Z) : option Z :=
  let c := (b0 - 224) * 4096 + (b1 - 128) * 64 + (b2 - 128) in
  if continuation b1 && (continuation b2 &&
       ((224 <=? b0) && (b0 <? 240) && (2048 <=? c) &&
        negb ((55296 <=? c) && (c <? 57344))))
  then Some c
  else None.

Definition four_bytes (b0 b1 b2 b3 : Z) : option Z :=
  let c := (b0 - 240) * 262144 + (b1 - 128) * 4096 + (b2 - 128) * 64
           + (b3 - 128) in
  if continuation b1 && (continuation b2 && (continuation b3 &&
       ((240 <=? b0) && (b0 <? 245) && (65536 <=? c) && (c <? 1114112))))
  then Some c
  else None.

Definition escaped (b : Z) : Z := 56320 + b.

Fixpoint utf8_decode (l : list Z) : list Z :=
  match l with
  | [] => []
  | b0 :: l1 =>
      if b0 <? 128 then b0 :: utf8_decode l1
      else
        match l1 with
        | [] => [escaped b0]
        | b1 :: l2 =>
            match two_bytes b0 b1 with
            | Some c => c :: utf8_decode l2
            | None =>
                match l2 with
                | [] => escaped b0 :: utf8_decode l1
                | b2 :: l3 =>
                    match three_bytes b0 b1 b2 with
                    | Some c => c :: utf8_decode l3
                    | None =>
                        match l3 with
                        | [] => escaped b0 :: utf8_decode l1
                        | b3 :: l4 =>
                            match four_bytes b0 b1 b2 b3 with
                            | Some c => c :: utf8_decode l4
                            | None => escaped b0 :: utf8_decode l1
                            end
                        end
                    end
                end
            end
        end
  end.

(** The bytes of one code point. *)
Definition utf8_encode (c : Z) : list Z :=
  if c <? 128 then [c]
  else if c <? 2048 then [192 + c / 64; 128 + c mod 64]
  else if (56448 <=? c) && (c <? 56576) then [c - 56320]
  else if c <? 65536
       then [224 + c / 4096; 128 + c / 64 mod 64; 128 + c mod 64]
  else [240 + c / 262144; 128 + c / 4096 mod 64; 128 + c / 64 mod 64;
        128 + c mod 64].

(** The code points of a text, and the text of a list of code points. *)
Definition code_points (s : string) : list Z :=
  utf8_decode (map byte_value (list_ascii_of_string s)).

Definition of_code_points (l : list Z) : string :=
  string_of_list_ascii (map byte_of (flat_map utf8_encode l)).

(** *** [str.upper]

    [str.upper] replaces each code point by its full uppercase mapping
    in the Unicode character database, which has no context rule for
    upper case; a mapping can be longer than one code point (U+00DF
    becomes SS).  The tables below are those of Unicode 14.0.0, the
    database of CPython 3.11.  [upper_ranges] lists the code points with a
    one-point mapping as (first, last, step, offset): every [step]-th
    code point from [first] to [last] moves by [offset].  [upper_special]
    lists the longer mappings. *)
Definition upper_ranges : list (Z * Z * Z * Z) :=
  [
   (97, 122, 1, -32); (181, 181, 1, 743); (224, 246, 1, -32);
   (248, 254, 1, -32); (255, 255, 1, 121); (257, 303, 2, -1);
   (305, 305, 1, -232); (307, 311, 2, -1); (314, 328, 2, -1);
   (331, 375, 2, -1); (378, 382, 2, -1); (383, 383, 1, -300);
   (384, 384, 1, 195); (387, 389, 2, -1); (392, 392, 1, -1);
   (396, 396, 1, -1); (402, 402, 1, -1); (405, 405, 1, 97);
   (409, 409, 1, -1); (410, 410, 1, 163); (414, 414, 1, 130);
   (417, 421, 2, -1); (424, 424, 1, -1); (429, 429, 1, -1);
   (432, 432, 1, -1); (436, 438, 2, -1); (441, 441, 1, -1);
   (445, 445, 1, -1); (447, 447, 1, 56); (453, 453, 1, -1);
   (454, 454, 1, -2); (456, 456, 1, -1); (457, 457, 1, -2);
   (459, 459, 1, -1); (460, 460, 1, -2); (462, 476, 2, -1);
   (477, 477, 1, -79); (479, 495, 2, -1); (498, 498, 1, -1);
   (499, 499, 1, -2); (501, 501, 1, -1); (505, 543, 2, -1);
   (547, 563, 2, -1); (572, 572, 1, -1); (575, 576, 1, 10815);
   (578, 578, 1, -1); (583, 591, 2, -1); (592, 592, 1, 10783);
   (593, 593, 1, 10780); (594, 594, 1, 10782); (595, 595, 1, -210);
   (596, 596, 1, -206); (598, 599, 1, -205); (601, 601, 1, -202);
   (603, 603, 1, -203); (604, 604, 1, 42319); (608, 608, 1, -205);
   (609, 609, 1, 42315); (611, 611, 1, -207); (613, 613, 1, 42280);
   (614, 614, 1, 42308); (616, 616, 1, -209); (617, 617, 1, -211);
   (618, 618, 1, 42308); (619, 619, 1, 10743); (620, 620, 1, 42305);
   (623, 623, 1, -211); (625, 625, 1, 10749); (626, 626, 1, -213);
   (629, 629, 1, -214); (637, 637, 1, 10727); (640, 640, 1, -218);
   (642, 642, 1, 42307); (643, 643, 1, -218); (647, 647, 1, 42282);
   (648, 648, 1, -218); (649, 649, 1, -69); (650, 651, 1, -217);
   (652, 652, 1, -71); (658, 658, 1, -219); (669, 669, 1, 42261);
   (670, 670, 1, 42258); (837, 837, 1, 84); (881, 883, 2, -1);
   (887, 887, 1, -1); (891, 893, 1, 130); (940, 940, 1, -38);
   (941, 943, 1, -37); (945, 961, 1, -32); (962, 962, 1, -31);
   (963, 971, 1, -32); (972, 972, 1, -64); (973, 974, 1, -63);
   (976, 976, 1, -62); (977, 977, 1, -57); (981, 981, 1, -47);
   (982, 982, 1, -54); (983, 983, 1, -8); (985, 1007, 2, -1);
   (1008, 1008, 1, -86); (1009, 1009, 1, -80); (1010, 1010, 1, 7);
   (1011, 1011, 1, -116); (1013, 1013, 1, -96); (1016, 1016, 1, -1);
   (1019, 1019, 1, -1); (1072, 1103, 1, -32); (1104, 1119, 1, -80);
   (1121, 1153, 2, -1); (1163, 1215, 2, -1); (1218, 1230, 2, -1);
   (1231, 1231, 1, -15); (1233, 1327, 2, -1); (1377, 1414, 1, -48);
   (4304, 4346, 1, 3008); (4349, 4351, 1, 3008); (5112, 5117, 1, -8);
   (7296, 7296, 1, -6254); (7297, 7297, 1, -6253); (7298, 7298, 1, -6244);
   (7299, 7300, 1, -6242); (7301, 7301, 1, -6243); (7302, 7302, 1, -6236);
   (7303, 7303, 1, -6181); (7304, 7304, 1, 35266); (7545, 7545, 1, 35332);
   (7549, 7549, 1, 3814); (7566, 7566, 1, 35384); (7681, 7829, 2, -1);
   (7835, 7835, 1, -59); (7841, 7935, 2, -1); (7936, 7943, 1, 8);
   (7952, 7957, 1, 8); (7968, 7975, 1, 8); (7984, 7991, 1, 8);
   (8000, 8005, 1, 8); (8017, 8023, 2, 8); (8032, 8039, 1, 8);
   (8048, 8049, 1, 74); (8050, 8053, 1, 86); (8054, 8055, 1, 100);
   (8056, 8057, 1, 128); (8058, 8059, 1, 112); (8060, 8061, 1, 126);
   (8112, 8113, 1, 8); (8126, 8126, 1, -7205); (8144, 8145, 1, 8);
   (8160, 8161, 1, 8); (8165, 8165, 1, 7); (8526, 8526, 1, -28);
   (8560, 8575, 1, -16); (8580, 8580, 1, -1); (9424, 9449, 1, -26);
   (11312, 11359, 1, -48); (11361, 11361, 1, -1);
   (11365, 11365, 1, -10795); (11366, 11366, 1, -10792);
   (11368, 11372, 2, -1); (11379, 11379, 1, -1); (11382, 11382, 1, -1);
   (11393, 11491, 2, -1); (11500, 11502, 2, -1); (11507, 11507, 1, -1);
   (11520, 11557, 1, -7264); (11559, 11559, 1, -7264);
   (11565, 11565, 1, -7264); (42561, 42605, 2, -1); (42625, 42651, 2, -1);
   (42787, 42799, 2, -1); (42803, 42863, 2, -1); (42874, 42876, 2, -1);
   (42879, 42887, 2, -1); (42892, 42892, 1, -1); (42897, 42899, 2, -1);
   (42900, 42900, 1, 48); (42903, 42921, 2, -1); (42933, 42947, 2, -1);
   (42952, 42954, 2, -1); (42961, 42961, 1, -1); (42967, 42969, 2, -1);
   (42998, 42998, 1, -1); (43859, 43859, 1, -928);
   (43888, 43967, 1, -38864); (65345, 65370, 1, -32);
   (66600, 66639, 1, -40); (66776, 66811, 1, -40); (66967, 67003, 2, -39);
   (66968, 66976, 2, -39); (66980, 66992, 2, -39); (66996, 67000, 2, -39);
   (67004, 67004, 1, -39); (68800, 68850, 1, -64); (71872, 71903, 1, -32);
   (93792, 93823, 1, -32); (125218, 125251, 1, -34)
  ].

Definition upper_special : list (Z * list Z) :=
  [
   (223, [83; 83]); (329, [700; 78]); (496, [74; 780]);
   (912, [921; 776; 769]); (944, [933; 776; 769]); (1415, [1333; 1362]);
   (7830, [72; 817]); (7831, [84; 776]); (7832, [87; 778]);
   (7833, [89; 778]); (7834, [65; 702]); (8016, [933; 787]);
   (8018, [933; 787; 768]); (8020, [933; 787; 769]);
   (8022, [933; 787; 834]); (8064, [7944; 921]); (8065, [7945; 921]);
   (8066, [7946; 921]); (8067, [7947; 921]); (8068, [7948; 921]);
   (8069, [7949; 921]); (8070, [7950; 921]); (8071, [7951; 921]);
   (8072, [7944; 921]); (8073, [7945; 921]); (8074, [7946; 921]);
   (8075, [7947; 921]); (8076, [7948; 921]); (8077, [7949; 921]);
   (8078, [7950; 921]); (8079, [7951; 921]); (8080, [7976; 921]);
   (8081, [7977; 921]); (8082, [7978; 921]); (8083, [7979; 921]);
   (8084, [7980; 921]); (8085, [7981; 921]); (8086, [7982; 921]);
   (8087, [7983; 921]); (8088, [7976; 921]); (8089, [7977; 921]);
   (8090, [7978; 921]); (8091, [7979; 921]); (8092, [7980; 921]);
   (8093, [7981; 921]); (8094, [7982; 921]); (8095, [7983; 921]);
   (8096, [8040; 921]); (8097, [8041; 921]); (8098, [8042; 921]);
   (8099, [8043; 921]); (8100, [8044; 921]); (8101, [8045; 921]);
   (8102, [8046; 921]); (8103, [8047; 921]); (8104, [8040; 921]);
   (8105, [8041; 921]); (8106, [8042; 921]); (8107, [8043; 921]);
   (8108, [8044; 921]); (8109, [8045; 921]); (8110, [8046; 921]);
   (8111, [8047; 921]); (8114, [8122; 921]); (8115, [913; 921]);
   (8116, [902; 921]); (8118, [913; 834]); (8119, [913; 834; 921]);
   (8124, [913; 921]); (8130, [8138; 921]); (8131, [919; 921]);
   (8132, [905; 921]); (8134, [919; 834]); (8135, [919; 834; 921]);
   (8140, [919; 921]); (8146, [921; 776; 768]); (8147, [921; 776; 769]);
   (8150, [921; 834]); (8151, [921; 776; 834]); (8162, [933; 776; 768]);
   (8163, [933; 776; 769]); (8164, [929; 787]); (8166, [933; 834]);
   (8167, [933; 776; 834]); (8178, [8186; 921]); (8179, [937; 921]);
   (8180, [911; 921]); (8182, [937; 834]); (8183, [937; 834; 921]);
   (8188, [937; 921]); (64256, [70; 70]); (64257, [70; 73]);
   (64258, [70; 76]); (64259, [70; 70; 73]); (64260, [70; 70; 76]);
   (64261, [83; 84]); (64262, [83; 84]); (64275, [1348; 1350]);
   (64276, [1348; 1333]); (64277, [1348; 1339]); (64278, [1358; 1350]);
   (64279, [1348; 1341])
  ].

Fixpoint special_of (c : Z) (l : list (Z * list Z)) : option (list Z) :=
  match l with
  | [] => None
  | (k, v) :: l' => if c =? k then Some v else special_of c l'
  end.

Fixpoint offset_of (c : Z) (l : list (Z * Z * Z * Z)) : Z :=
  match l with
  | [] => 0
  | (first, last, step, offset) :: l' =>
      if (first <=? c) && (c <=? last) && ((c - first) mod step =? 0)
      then offset
      else offset_of c l'
  end.

(** The uppercase mapping of one code point. *)
Definition toupper (c : Z) : list Z :=
  match special_of c upper_special with
  | Some l => l
  | None => [c + offset_of c upper_ranges]
  end.


Definition upper (s : string) : string :=
  of_code_points (flat_map toupper (code_points s)).

(** *** The letters a..z

    [upper_letters] moves the letters a..z of a text to A..Z and leaves
    every other byte.  Two texts with the same letters differ at most in
    the case of these letters. *)
Definition upper_ascii (c : ascii) : ascii :=
  let n := nat_of_ascii c in
  if (97 <=? n)%nat && (n <=? 122)%nat then ascii_of_nat (n - 32) else c.

Fixpoint upper_letters (s : string) : string :=
  match s with
  | EmptyString => EmptyString
  | String c s' => String (upper_ascii c) (upper_letters s')
  end.

Definition same_letters (s s' : string) : Prop :=
  upper_letters s = upper_letters s'.

(** [str.isascii]. *)
Fixpoint isascii (s : string) : bool :=
  match s with
  | EmptyString => true
  | String c s' => (byte_value c <? 128) && isascii s'
  end.

(** Python's [/] on floats: a zero divisor (of either sign) raises, any
    other pair divides as IEEE 754 does. *)
Definition truediv (x y : float) : result float :=
  if (y =? 0)%float then Raise ZeroDivisionError else Ok (x / y)%float.

(** The integer nearest to [p / q] (for [q > 0]), ties going to the even
    neighbour. *)
Definition round_half_even (p q : Z) : Z :=
  let n := p / q in
  match 2 * (p mod q) ?= q with
  | Lt => n
  | Gt => n + 1
  | Eq => if Z.even n then n else n + 1
  end.

(** The binary64 value nearest to [n / d], with sign [s]: the correctly
    rounded quotient of the two integers. *)
Definition nearest_float (s : bool) (n d : positive) : spec_float :=
  SFdiv prec emax (S754_finite s n 0) (S754_finite false d 0).

(** Python's [round(x, ndigits)] for a float [x] and [ndigits >= 0]
    (CPython's [double_round]): the exact value of [x] is rounded to a
    multiple of [10^-ndigits], half to even, and the decimal numeral so
    obtained is read back as the nearest float.  The sign of [x] is kept
    when the result is zero; infinities and NaN round to themselves. *)
Definition py_round (x : float) (ndigits : nat) : float :=
  match Prim2SF x with
  | S754_finite s m e =>
      (* |x| * 10^ndigits = p / q *)
      let p := Z.pos m * 2 ^ Z.max e 0 * 10 ^ Z.of_nat ndigits in
      let q := 2 ^ Z.max (- e) 0 in
      SF2Prim match round_half_even p q with
              | Z.pos n => nearest_float s n (Z.to_pos (10 ^ Z.of_nat ndigits))
              | _ => S754_zero s
              end
  | _ => x
  end.

(** [n] is an integer nearest to [p / q], and the even one on a tie. *)
Definition nearest_half_even (p q n : Z) : Prop :=
  2 * Z.abs (n * q - p) <= q /\
  (2 * Z.abs (n * q - p) = q -> Z.even n = true).

(** [y] is [x] rounded to [ndigits] decimals, half to even: the float
    nearest to [n / 10^ndigits] for such an [n]. *)
Definition rounded_half_even (x : float) (ndigits : nat) (y : float) : Prop :=
  match Prim2SF x with
  | S754_finite s m e =>
      exists n,
        nearest_half_even (Z.pos m * 2 ^ Z.max e 0 * 10 ^ Z.of_nat ndigits)
                          (2 ^ Z.max (- e) 0) n /\
        y = SF2Prim match n with
                    | Z.pos n' => nearest_float s n' (Z.to_pos (10 ^ Z.of_nat ndigits))
                    | _ => S754_zero s
                    end
  | _ => y = x
  end.

(** The binary64 datum of the float [1.0]. *)
Definition SFone64 : spec_float := S754_finite false 4503599627370496 (-52).

(** ** The data model *)

(** A string held in [last_update] or in the cache's "last_update" field.
    Text in the format "%Y-%m-%d %H:%M:%S" is represented by the second
    it denotes on the naive local time line; any other text is kept. *)
Inductive stamp : Type :=
  | Stamp (secs : Z)
  | NotAStamp (text : string).

(** The mutable attributes of a [CurrencyConverter].  [last_update] is
    [None] for Python's [None]. *)
Record CurrencyConverter : Type := {
  exchange_rates : gmap string float;
  last_update : option stamp;
  supported_currencies : list string
}.

(** The attributes as [__init__] sets them before loading. *)
Definition blank : CurrencyConverter :=
  {| exchange_rates := ∅; last_update := None; supported_currencies := [] |}.

(** The JSON object in the cache file: each key may be missing; the value
    of "last_update" may be [null] (inner [None]). *)
Record cache_json : Type := {
  cj_rates : option (gmap string float);
  cj_last_update : option (option stamp)
}.

(** What is found at the path [cache_file]. *)
Inductive file : Type :=
  | NoFile                         (* os.path.exists is False *)
  | Unreadable                     (* open raises OSError *)
  | Malformed                      (* json.load raises JSONDecodeError *)
  | JsonNotObject                  (* valid JSON, but not an object *)
  | JsonObject (c : cache_json).

(** The two requests of [fetch_latest_rates]. *)
Inductive endpoint : Type := Codes | LatestUSD.

(** The JSON body of a response, by the keys the code reads. *)
Record body : Type := {
  supported_codes : option (list string);
  result_field : option string;
  conversion_rates : option (gmap string float)
}.

(** [HttpFailure]: [requests.get], [raise_for_status] or [json] raises a
    [RequestException] (no connection, a timeout, an HTTP error status,
    a body that is not JSON). *)
Inductive http_response : Type :=
  | HttpFailure
  | HttpBody (b : body).

(** A line written by [print].  The text Python shows for an exception
    is not modelled: such a line records the exception. *)
Inductive line : Type :=
  | FetchError (e : exn)   (* "Error saat mengambil data dari API: {e}" *)
  | LoadError (e : exn)    (* "Error: {e}" *)
  | Text (s : string).

(** The object together with everything outside it that the code reads
    or writes. *)
Record world : Type := {
  obj : CurrencyConverter;
  disk : file;                           (* content of the cache file *)
  disk_writable : bool;                  (* open(cache_file, 'w') succeeds *)
  getenv_API_KEY : option string;        (* os.environ.get('EXCHANGERATE_API_KEY') *)
  dotenv_API_KEY : option string;        (* the entry of the .env file, if any *)
  API_KEY : option string;               (* self.API_KEY *)
  ticks : nat;                           (* calls of datetime.now() so far *)
  clock : nat -> Z;                      (* their readings, in microseconds *)
  requests : nat;                        (* HTTP requests sent so far *)
  provider : nat -> endpoint -> http_response;
  console : list line                    (* what was printed, oldest first *)
}.

Definition with_obj (o : CurrencyConverter) (w : world) : world :=
  {| obj := o; disk := disk w; disk_writable := disk_writable w;
     getenv_API_KEY := getenv_API_KEY w;
     dotenv_API_KEY := dotenv_API_KEY w; API_KEY := API_KEY w;
     ticks := ticks w; clock := clock w;
     requests := requests w; provider := provider w;
     console := console w |}.

Definition with_disk (f : file) (w : world) : world :=
  {| obj := obj w; disk := f; disk_writable := disk_writable w;
     getenv_API_KEY := getenv_API_KEY w;
     dotenv_API_KEY := dotenv_API_KEY w; API_KEY := API_KEY w;
     ticks := ticks w; clock := clock w;
     requests := requests w; provider := provider w;
     console := console w |}.

Definition tick (w : world) : world :=
  {| obj := obj w; disk := disk w; disk_writable := disk_writable w;
     getenv_API_KEY := getenv_API_KEY w;
     dotenv_API_KEY := dotenv_API_KEY w; API_KEY := API_KEY w;
     ticks := S (ticks w); clock := clock w;
     requests := requests w; provider := provider w;
     console := console w |}.

Definition sent (w : world) : world :=
  {| obj := obj w; disk := disk w; disk_writable := disk_writable w;
     getenv_API_KEY := getenv_API_KEY w;
     dotenv_API_KEY := dotenv_API_KEY w; API_KEY := API_KEY w;
     ticks := ticks w; clock := clock w;
     requests := S (requests w); provider := provider w;
     console := console w |}.

Definition printed (l : line) (w : world) : world :=
  {| obj := obj w; disk := disk w; disk_writable := disk_writable w;
     getenv_API_KEY := getenv_API_KEY w;
     dotenv_API_KEY := dotenv_API_KEY w; API_KEY := API_KEY w;
     ticks := ticks w; clock := clock w;
     requests := requests w; provider := provider w;
     console := console w ++ [l] |}.

Definition with_environ (v : option string) (w : world) : world :=
  {| obj := obj w; disk := disk w; disk_writable := disk_writable w;
     getenv_API_KEY := v;
     dotenv_API_KEY := dotenv_API_KEY w; API_KEY := API_KEY w;
     ticks := ticks w; clock := clock w;
     requests := requests w; provider := provider w;
     console := console w |}.

Definition with_API_KEY (v : option string) (w : world) : world :=
  {| obj := obj w; disk := disk w; disk_writable := disk_writable w;
     getenv_API_KEY := getenv_API_KEY w;
     dotenv_API_KEY := dotenv_API_KEY w; API_KEY := v;
     ticks := ticks w; clock := clock w;
     requests := requests w; provider := provider w;
     console := console w |}.

(** ** The monad of methods *)

Definition M (A : Type) : Type := world -> result A * world.

Definition ret {A} (a : A) : M A := fun w => (Ok a, w).

Definition raise {A} (e : exn) : M A := fun w => (Raise e, w).

Definition bind {A B} (c : M A) (k : A -> M B) : M B :=
  fun w =>
    match c w with
    | (Ok a, w') => k a w'
    | (Raise e, w') => (Raise e, w')
    end.

(** [try: body / except <class>: handler]. *)
Definition try_except {A} (body : M A) (catches : exn -> bool)
    (handler : exn -> M A) : M A :=
  fun w =>
    match body w with
    | (Ok a, w') => (Ok a, w')
    | (Raise e, w') => if catches e then handler e w' else (Raise e, w')
    end.

Declare Scope py_scope.
Delimit Scope py_scope with py.
Notation "'let!' x ':=' c 'in' k" := (bind c (fun x => k))
  (at level 10, x name, c at level 100, k at level 200) : py_scope.
Notation "'do!' c 'in' k" := (bind c (fun _ => k))
  (at level 10, c at level 100, k at level 200) : py_scope.
Local Open Scope py_scope.

Definition print (l : line) : M unit := fun w => (Ok tt, printed l w).

(** [d[key]] on a JSON object whose entry for [key] is [v]. *)
Definition getitem {A} (key : string) (v : option A) : M A :=
  match v with
  | Some a => ret a
  | None => raise (KeyError key)
  end.

Definition set_exchange_rates (t : gmap string float) : M unit :=
  fun w => (Ok tt,
            with_obj {| exchange_rates := t;
                        last_update := last_update (obj w);
                        supported_currencies := supported_currencies (obj w) |} w).

Definition set_last_update (s : option stamp) : M unit :=
  fun w => (Ok tt,
            with_obj {| exchange_rates := exchange_rates (obj w);
                        last_update := s;
                        supported_currencies := supported_currencies (obj w) |} w).

Definition set_supported_currencies (l : list string) : M unit :=
  fun w => (Ok tt,
            with_obj {| exchange_rates := exchange_rates (obj w);
                        last_update := last_update (obj w);
                        supported_currencies := l |} w).

(** ** Time *)

Definition us_per_second : Z := 1000000.
Definition us_per_day : Z := 86400 * us_per_second.

(** [datetime.now()]: the next reading of the clock. *)
Definition datetime_now : M Z :=
  fun w => (Ok (clock w (ticks w)), tick w).

(** [t.strftime("%Y-%m-%d %H:%M:%S")]: the microseconds are dropped. *)
Definition strftime (t : Z) : stamp := Stamp (t / us_per_second).

(** [datetime.strptime(v, "%Y-%m-%d %H:%M:%S")] on the JSON value [v]. *)
Definition strptime (v : option stamp) : M Z :=
  match v with
  | Some (Stamp secs) => ret (secs * us_per_second)
  | Some (NotAStamp _) => raise (ValueError "time data does not match format")
  | None => raise TypeError
  end.

(** [.days] of a [timedelta] of [d] microseconds: timedeltas are
    normalised with a floor division, so a negative difference has a
    negative day count. *)
Definition timedelta_days (d : Z) : Z := d / us_per_day.

(** ** The cache file and the network *)

Definition os_path_exists : M bool :=
  fun w => (Ok (match disk w with NoFile => false | _ => true end), w).

(** [with open(cache_file, 'r') as file: json.load(file)], up to the first
    subscript of the loaded value. *)
Definition json_load : M cache_json :=
  fun w =>
    match disk w with
    | NoFile | Unreadable => (Raise OSError, w)
    | Malformed => (Raise (ValueError "JSONDecodeError"), w)
    | JsonNotObject => (Raise TypeError, w)
    | JsonObject c => (Ok c, w)
    end.

(** [requests.get(url)], [raise_for_status()] and [.json()]. *)
Definition requests_get (ep : endpoint) : M body :=
  fun w =>
    match provider w (requests w) ep with
    | HttpFailure => (Raise RequestException, sent w)
    | HttpBody b => (Ok b, sent w)
    end.

(** ** The methods of [CurrencyConverter] *)

(** [save_to_cache]: the two attributes are written as one JSON object
    over whatever the file held; a failing [open] raises and writes
    nothing. *)
Definition save_to_cache : M unit :=
  fun w =>
    if disk_writable w then
      (Ok tt,
       with_disk (JsonObject {| cj_rates := Some (exchange_rates (obj w));
                                cj_last_update := Some (last_update (obj w)) |}) w)
    else (Raise OSError, w).

Definition fetch_latest_rates : M bool :=
  try_except
    (let! response := requests_get Codes in
     let! codes := getitem "supported_codes" (supported_codes response) in
     do! set_supported_currencies codes in
     let! data := requests_get LatestUSD in
     let! status := getitem "result" (result_field data) in
     if String.eqb status "success" then
       let! rates := getitem "conversion_rates" (conversion_rates data) in
       do! set_exchange_rates rates in
       let! now := datetime_now in
       do! set_last_update (Some (strftime now)) in
       do! save_to_cache in
       ret true
     else ret false)
    is_RequestException
    (fun e => do! print (FetchError e) in ret false).

Definition default_rates : gmap string float :=
  {[ "USD" := 1.0%float; "EUR" := 0.93%float; "IDR" := 15600%float;
     "SGD" := 1.35%float; "MYR" := 4.73%float; "JPY" := 150.27%float ]}.

Definition use_default_rates : M unit :=
  do! set_exchange_rates default_rates in
  let! now := datetime_now in
  set_last_update (Some (strftime now)).

(** The part of [load_or_update_rates] under [if os.path.exists(...)]:
    [true] when the method returns from inside it. *)
Definition load_from_cache : M bool :=
  let! cache := json_load in
  let! stored := getitem "last_update" (cj_last_update cache) in
  let! cache_time := strptime stored in
  let! now := datetime_now in
  let time_diff := now - cache_time in
  if timedelta_days time_diff <? 1 then
    let! rates := getitem "rates" (cj_rates cache) in
    do! set_exchange_rates rates in
    do! set_last_update stored in
    ret true
  else ret false.

(** The handler of [load_or_update_rates]. *)
Definition load_handler (e : exn) : M unit :=
  do! print (LoadError e) in
  do! print (Text "Menggunakan data kurs default...") in
  use_default_rates.

Definition fetch_failed : exn := Exception_ "Gagal mengambil data kurs terbaru".

Definition load_or_update_rates : M unit :=
  try_except
    (let! found := os_path_exists in
     let! returned := (if found then load_from_cache else ret false) in
     if returned then ret tt
     else
       let! fetched := fetch_latest_rates in
       if negb fetched then raise fetch_failed else ret tt)
    is_Exception
    load_handler.

(** [load_dotenv()]: the entries of the .env file are added to the
    environment; with the default [override=False] an entry is skipped
    when the environment holds the variable already, whatever its value.
    Without a file, or without an entry for the variable, nothing
    changes.  A file that is there is taken to be readable. *)
Definition load_dotenv : M unit :=
  fun w =>
    match getenv_API_KEY w, dotenv_API_KEY w with
    | None, Some v => (Ok tt, with_environ (Some v) w)
    | _, _ => (Ok tt, w)
    end.

(** [os.getenv('EXCHANGERATE_API_KEY')]: [None] when the variable is not
    set. *)
Definition os_getenv : M (option string) :=
  fun w => (Ok (getenv_API_KEY w), w).

Definition set_API_KEY (v : option string) : M unit :=
  fun w => (Ok tt, with_API_KEY v w).

(** [not v] for a value that is [None] or a [str]. *)
Definition falsy (v : option string) : bool :=
  match v with
  | None | Some EmptyString => true
  | Some _ => false
  end.

(** Lines 15 to 19 of [__init__]: [base_url] and [cache_file] are
    constants of the model, the three other attributes are emptied. *)
Definition reset_attributes : M unit :=
  fun w => (Ok tt, with_obj blank w).

Definition __init__ : M unit :=
  do! load_dotenv in
  let! key := os_getenv in
  do! set_API_KEY key in
  if falsy key then raise (ValueError "API Key tidak ditemukan")
  else
    do! reset_attributes in
    load_or_update_rates.

(** The value of the variable once [load_dotenv] has run: the one of the
    environment if it is set, else the one of the .env file. *)
Definition credential (w : world) : option string :=
  match getenv_API_KEY w with
  | Some v => Some v
  | None => dotenv_API_KEY w
  end.

(** The world after the first three statements of [__init__]. *)
Definition keyed (w : world) : world :=
  with_API_KEY (credential w) (snd (load_dotenv w)).

(** [convert] reads the object and changes nothing. *)
Definition convert (self : CurrencyConverter) (amount : float)
    (from_currency to_currency : string) : result float :=
  let from_currency := upper from_currency in
  let to_currency := upper to_currency in
  match exchange_rates self !! from_currency, exchange_rates self !! to_currency with
  | Some rate_from, Some rate_to =>
      match truediv amount rate_from with
      | Ok amount_in_usd =>
          let result := (amount_in_usd * rate_to)%float in
          Ok (py_round result 2)
      | Raise e => Raise e
      end
  | _, _ => Raise UnsupportedCurrency
  end.

Definition convert_call (amount : float) (from_currency to_currency : string)
    : M float :=
  fun w => (convert (obj w) amount from_currency to_currency, w).

Definition msg_updated : string := "Kurs berhasil diperbarui dari API!".
Definition msg_kept : string :=
  "Gagal memperbarui kurs. Menggunakan data terakhir yang tersedia.".

Definition update_from_api : M unit :=
  let! fetched := fetch_latest_rates in
  if fetched then print (Text msg_updated) else print (Text msg_kept).

(** The binary64 datum of a returned float, for telling results apart. *)
Definition datum_of (r : result float) : option spec_float :=
  match r with
  | Ok v => Some (Prim2SF v)
  | Raise _ => None
  end.

(** A converter holding the table [t]. *)
Definition holding (t : gmap string float) : CurrencyConverter :=
  {| exchange_rates := t; last_update := None; supported_currencies := [] |}.

(** ** Vocabulary for the store's properties *)

(** What the methods never change. *)
Definition same_env (w w' : world) : Prop :=
  clock w' = clock w /\ provider w' = provider w /\
  getenv_API_KEY w' = getenv_API_KEY w /\ disk_writable w' = disk_writable w.

(** The stored rate table, its timestamp and the cache file are as before. *)
Definition same_store (w w' : world) : Prop :=
  exchange_rates (obj w') = exchange_rates (obj w) /\
  last_update (obj w') = last_update (obj w) /\
  disk w' = disk w.

(** The provider answers the next two requests, the second with the
    status "success": the codes are [codes], the rates are [rates]. *)
Definition reports_success (w : world) (codes : list string)
    (rates : gmap string float) : Prop :=
  exists b1 b2,
    provider w (requests w) Codes = HttpBody b1 /\
    supported_codes b1 = Some codes /\
    provider w (S (requests w)) LatestUSD = HttpBody b2 /\
    result_field b2 = Some "success" /\
    conversion_rates b2 = Some rates.

(** The bodies of the next answers carry the keys the code subscripts:
    "supported_codes" in the first, "result" in the second, and
    "conversion_rates" beside a "success". *)
Definition bodies_complete (w : world) : Prop :=
  forall b1, provider w (requests w) Codes = HttpBody b1 ->
    is_Some (supported_codes b1) /\
    forall b2, provider w (S (requests w)) LatestUSD = HttpBody b2 ->
      exists status, result_field b2 = Some status /\
        (status = "success" -> is_Some (conversion_rates b2)).

(** The attributes after a successful fetch at the clock reading [now]. *)
Definition fetched (codes : list string) (rates : gmap string float)
    (now : Z) : CurrencyConverter :=
  {| exchange_rates := rates; last_update := Some (strftime now);
     supported_currencies := codes |}.

(** The cache record that [save_to_cache] writes for the object [o]. *)
Definition record_of (o : CurrencyConverter) : file :=
  JsonObject {| cj_rates := Some (exchange_rates o);
                cj_last_update := Some (last_update o) |}.

(** The attributes after [use_default_rates] at the clock reading [now]. *)
Definition defaulted (o : CurrencyConverter) (now : Z) : CurrencyConverter :=
  {| exchange_rates := default_rates; last_update := Some (strftime now);
     supported_currencies := supported_currencies o |}.

(** The cache file holds a JSON object with a well-formed timestamp of
    [secs] seconds. *)
Definition cache_stamped (w : world) (c : cache_json) (secs : Z) : Prop :=
  disk w = JsonObject c /\ cj_last_update c = Some (Some (Stamp secs)).

(** The age of such a cache at the next clock reading, in microseconds. *)
Definition cache_age (w : world) (secs : Z) : Z :=
  clock w (ticks w) - secs * us_per_second.

(** The JSON object [c] of the cache file cannot be used: "last_update"
    is missing, [null] or not a timestamp, or the timestamp is recent but
    "rates" is missing. *)
Definition object_unusable (w : world) (c : cache_json) : Prop :=
  cj_last_update c = None \/ cj_last_update c = Some None \/
  (exists text, cj_last_update c = Some (Some (NotAStamp text))) \/
  (exists secs, cj_last_update c = Some (Some (Stamp secs)) /\
     cache_age w secs < us_per_day /\ cj_rates c = None).

(** The cache file exists and cannot be used: it cannot be opened or
    parsed, it is not an object, or it is an unusable object. *)
Definition cache_unusable (w : world) : Prop :=
  disk w = Unreadable \/ disk w = Malformed \/ disk w = JsonNotObject \/
  exists c, disk w = JsonObject c /\ object_unusable w c.

(** The cache file holds a well-formed timestamp that is a day old or
    more at the next clock reading. *)
Definition cache_stale (w : world) : Prop :=
  exists c secs, cache_stamped w c secs /\ us_per_day <= cache_age w secs.

(** What [load_or_update_rates] makes of the outcome of its fetch: a
    [True] ends the method, anything else (a [False], an exception that
    escaped the fetch) runs the handler. *)
Definition after_fetch (outcome : result bool * world) : result unit * world :=
  match outcome with
  | (Ok true, w1) => (Ok tt, w1)
  | (Ok false, w1) => load_handler fetch_failed w1
  | (Raise e, w1) => load_handler e w1
  end.

(** ** Sample worlds *)

(** A clock that starts at [start] and advances a microsecond a reading. *)
Definition steady_clock (start : Z) (n : nat) : Z := start + Z.of_nat n.

(** A provider that cannot be reached. *)
Definition offline : nat -> endpoint -> http_response :=
  fun _ _ => HttpFailure.

(** A provider that answers with status 200 and an error body. *)
Definition refusing : nat -> endpoint -> http_response :=
  fun _ _ => HttpBody {| supported_codes := None;
                         result_field := Some "error";
                         conversion_rates := None |}.

(** A provider that serves the table [rates]. *)
Definition serving (rates : gmap string float)
    : nat -> endpoint -> http_response :=
  fun _ ep =>
    match ep with
    | Codes => HttpBody {| supported_codes := Some ["USD"; "EUR"];
                           result_field := Some "success";
                           conversion_rates := None |}
    | LatestUSD => HttpBody {| supported_codes := None;
                               result_field := Some "success";
                               conversion_rates := Some rates |}
    end.

(** A cache file as [save_to_cache] writes it. *)
Definition cached (rates : gmap string float) (secs : Z) : file :=
  JsonObject {| cj_rates := Some rates;
                cj_last_update := Some (Some (Stamp secs)) |}.

Definition hours (h : Z) : Z := h * 3600 * us_per_second.

(** The world at the start of a run, [now] microseconds on the clock. *)
Definition at_start (f : file) (p : nat -> endpoint -> http_response)
    (now : Z) : world :=
  {| obj := blank; disk := f; disk_writable := true;
     getenv_API_KEY := Some "key"; dotenv_API_KEY := None; API_KEY := None;
     ticks := 0; clock := steady_clock now;
     requests := 0; provider := p; console := [] |}.

(** A world before the converter exists, with the variable as the
    environment and the .env file give it. *)
Definition unkeyed (environ dotenv : option string) : world :=
  {| obj := blank; disk := NoFile; disk_writable := true;
     getenv_API_KEY := environ; dotenv_API_KEY := dotenv; API_KEY := None;
     ticks := 0; clock := steady_clock 0;
     requests := 0; provider := offline; console := [] |}.

(** Rates that differ from the defaults. *)
Definition todays_rates : gmap string float :=
  {[ "USD" := 1%float; "EUR" := 0.5%float ]}.

(** A table whose pivot entry is not 1.0. *)
Definition skewed_rates : gmap string float :=
  {[ "USD" := 2%float; "EUR" := 0.93%float ]}.

(** ** Sequences of operations *)

(** The operations a caller can perform on the store.  [OpInitialize]
    constructs the converter anew, as a fresh run of the program does. *)
Inductive op : Type :=
  | OpInitialize
  | OpFetchLatest
  | OpRefresh
  | OpPersist
  | OpConvert (amount : float) (from_currency to_currency : string).

(** The world after an operation, whether it returned or raised. *)
Definition run (o : op) (w : world) : world :=
  match o with
  | OpInitialize => snd (__init__ w)
  | OpFetchLatest => snd (fetch_latest_rates w)
  | OpRefresh => snd (update_from_api w)
  | OpPersist => snd (save_to_cache w)
  | OpConvert a f t => snd (convert_call a f t w)
  end.

Definition run_all (os : list op) (w : world) : world :=
  fold_left (fun w o => run o w) os w.

(** The data model's invariant on the pivot currency. *)
Definition pivot_ok (t : gmap string float) : Prop :=
  forall r, t !! "USD" = Some r -> r = 1%float.

(** The invariant on the tables that come from outside: every table the
    provider sends, and the table in the cache file. *)
Definition provider_pivot_ok (p : nat -> endpoint -> http_response) : Prop :=
  forall n ep b rates,
    p n ep = HttpBody b -> conversion_rates b = Some rates -> pivot_ok rates.

Definition disk_pivot_ok (f : file) : Prop :=
  forall c rates, f = JsonObject c -> cj_rates c = Some rates -> pivot_ok rates.

Definition store_pivot_ok (w : world) : Prop :=
  pivot_ok (exchange_rates (obj w)) /\ disk_pivot_ok (disk w).

(** The data model's positivity of rates ([+inf] counts as positive). *)
Definition positive_rates (t : gmap string float) : Prop :=
  forall k r, t !! k = Some r -> (0 <? r)%float = true.

(** ** Number formatting *)

(** The decimal digits of a natural number, "0" for zero. *)
Definition digits (n : Z) : string :=
  NilZero.string_of_uint (N.to_uint (Z.to_N n)).

Fixpoint zeros (n : nat) : string :=
  match n with
  | O => EmptyString
  | S k => String "0" (zeros k)
  end.

(** [s] with zeros on the left up to [width] characters. *)
Definition zfill (width : nat) (s : string) : string :=
  zeros (width - String.length s) +:+ s.

(** A comma after every third digit, on the digits in reverse order. *)
Fixpoint group_reversed (l : list ascii) : list ascii :=
  match l with
  | a :: b :: c :: rest =>
      match rest with
      | [] => l
      | _ => a :: b :: c :: ","%char :: group_reversed rest
      end
  | _ => l
  end.

Definition thousands (s : string) : string :=
  string_of_list_ascii (rev (group_reversed (rev (list_ascii_of_string s)))).

Definition sign_text (s : bool) : string :=
  if s then "-" else EmptyString.

(** Python's [format(x, ",.<precision>f")] for a float [x] and a positive
    [precision]: the exact value rounded half to even at that decimal, the
    integer part grouped by thousands; the sign is kept on a zero. *)
Definition format_comma_f (precision : nat) (x : float) : string :=
  match Prim2SF x with
  | S754_nan => "nan"
  | S754_infinity s => sign_text s +:+ "inf"
  | S754_zero s => sign_text s +:+ "0." +:+ zeros precision
  | S754_finite s m e =>
      let scale := 10 ^ Z.of_nat precision in
      let n := round_half_even (Z.pos m * 2 ^ Z.max e 0 * scale)
                               (2 ^ Z.max (- e) 0) in
      sign_text s +:+ thousands (digits (n / scale)) +:+ "." +:+
      zfill precision (digits (n mod scale))
  end.

(** ** The terminal *)

(** The line feed that starts several of the program's messages. *)
Definition nl : string := String "010" EmptyString.

(** What [main] and [display_rates] put on the terminal.  The texts that
    interpolate a timestamp or an exception record it instead. *)
Inductive shown : Type :=
  | Printed (l : line)             (* printed by a method run in [M] *)
  | Said (s : string)              (* print(s) *)
  | Asked (prompt : string)        (* the prompt of input(prompt) *)
  | Updated (v : option stamp)     (* "Terakhir diperbarui: {last_update}" *)
  | ErrorLine (e : exn)            (* "Error: {e}" *)
  | Fatal (e : option exn).        (* "Terjadi kesalahan saat menjalankan
                                      aplikasi: {e}"; None for EOFError *)

Definition rule : string := "----------------------------------------".

Definition main_currencies : list string :=
  ["EUR"; "IDR"; "SGD"; "MYR"; "JPY"; "GBP"; "AUD"; "CNY"; "HKD"; "KRW"].

Definition rate_line (rate : float) (currency : string) : shown :=
  Said ("1 USD = " +:+ format_comma_f 4 rate +:+ " " +:+ currency).

(** The loop of [display_rates] over the currencies still to show. *)
Fixpoint display_loop (self : CurrencyConverter) (currencies : list string)
    : list shown :=
  match currencies with
  | [] => []
  | currency :: rest =>
      match exchange_rates self !! currency with
      | Some rate => rate_line rate currency :: display_loop self rest
      | None => display_loop self rest
      end
  end.

(** [display_rates]: the lines it prints; it assigns nothing. *)
Definition display_rates (self : CurrencyConverter) : list shown :=
  [Said (nl +:+ "Kurs Mata Uang Terhadap USD:");
   Updated (last_update self);
   Said rule] ++
  display_loop self main_currencies ++
  [Said rule].

(** ** The menu session *)

(** A line typed at the terminal, with what [float()] makes of it
    ([None]: it raises [ValueError]). *)
Record typed : Type := {
  text : string;
  float_value : option float
}.

(** The terminal session of [main]: the lines still to be typed, the world
    of the converter, and the screen so far, oldest line first. *)
Record session : Type := {
  stdin : list typed;
  store : world;
  screen : list shown
}.

Definition show (lines : list shown) (s : session) : session :=
  {| stdin := stdin s; store := store s; screen := screen s ++ lines |}.

(** A method run from [main]: what it printed goes to the screen. *)
Definition call {A} (c : M A) (s : session) : result A * session :=
  let (r, w') := c (store s) in
  (r, {| stdin := stdin s; store := w';
         screen := screen s ++
                   map Printed (skipn (length (console (store s))) (console w')) |}).

(** [input(prompt)]: the prompt is written, then a line is read; [None]
    when the input is exhausted and Python raises [EOFError]. *)
Definition input (prompt : string) (s : session) : option typed * session :=
  match stdin s with
  | [] => (None, show [Asked prompt] s)
  | l :: rest =>
      (Some l, {| stdin := rest; store := store s;
                  screen := screen s ++ [Asked prompt] |})
  end.

(** The message of the [ValueError] of [float(text)], for a text without
    quotes or escapes. *)
Definition could_not_convert (t : string) : exn :=
  ValueError ("could not convert string to float: '" +:+ t +:+ "'").

Definition msg_invalid_input : string := "Terjadi kesalahan! Pastikan input valid.".
Definition msg_invalid_choice : string := "Pilihan tidak valid! Silakan coba lagi.".
Definition msg_goodbye : string := "Terima kasih telah menggunakan aplikasi ini!".

Definition result_text (amount : float) (from_curr : string) (result : float)
    (to_curr : string) : string :=
  nl +:+ format_comma_f 2 amount +:+ " " +:+ upper from_curr +:+ " = " +:+
  format_comma_f 2 result +:+ " " +:+ upper to_curr.

(** The branch of choice 1, with its two handlers: a [ValueError] is
    shown, any other exception (the end of the input among them) gives
    the general message. *)
Definition convert_dialog (s : session) : session :=
  match input "Masukkan jumlah uang: " s with
  | (None, s1) => show [Said msg_invalid_input] s1
  | (Some l, s1) =>
      match float_value l with
      | None => show [ErrorLine (could_not_convert (text l))] s1
      | Some amount =>
          match input "Masukkan mata uang asal (contoh: USD): " s1 with
          | (None, s2) => show [Said msg_invalid_input] s2
          | (Some from_curr, s2) =>
              match input "Masukkan mata uang tujuan (contoh: IDR): " s2 with
              | (None, s3) => show [Said msg_invalid_input] s3
              | (Some to_curr, s3) =>
                  match convert (obj (store s3)) amount (text from_curr)
                                (text to_curr) with
                  | Ok result =>
                      show [Said (result_text amount (text from_curr) result
                                    (text to_curr))] s3
                  | Raise (ValueError msg) => show [ErrorLine (ValueError msg)] s3
                  | Raise _ => show [Said msg_invalid_input] s3
                  end
              end
          end
      end
  end.

Definition menu : list shown :=
  [Said (nl +:+ "Menu Konversi Mata Uang:");
   Said "1. Konversi Mata Uang";
   Said "2. Lihat Kurs Saat Ini";
   Said "3. Update Kurs dari API";
   Said "4. Keluar"].

(** The [while True] loop of [main], with the outer handler applied to
    what escapes it.  Every turn reads a line, so a finite input ends the
    loop; [fuel] bounds the turns, [None] when it runs out. *)
Fixpoint menu_loop (fuel : nat) (s : session) : option session :=
  match fuel with
  | O => None
  | S fuel' =>
      match input (nl +:+ "Pilih menu (1-4): ") (show menu s) with
      | (None, s1) => Some (show [Fatal None] s1)
      | (Some choice, s1) =>
          if String.eqb (text choice) "1" then menu_loop fuel' (convert_dialog s1)
          else if String.eqb (text choice) "2" then
            menu_loop fuel' (show (display_rates (obj (store s1))) s1)
          else if String.eqb (text choice) "3" then
            match call update_from_api s1 with
            | (Ok _, s2) => menu_loop fuel' s2
            | (Raise e, s2) => Some (show [Fatal (Some e)] s2)
            end
          else if String.eqb (text choice) "4" then
            Some (show [Said msg_goodbye] s1)
          else menu_loop fuel' (show [Said msg_invalid_choice] s1)
      end
  end.

(** The body of [main] on the typed lines [inputs], in the world [w],
    with [fuel] turns for the loop. *)
Definition main_with (fuel : nat) (inputs : list typed) (w : world)
    : option session :=
  match call __init__ {| stdin := inputs; store := w; screen := [] |} with
  | (Ok _, s) => menu_loop fuel s
  | (Raise e, s) => Some (show [Fatal (Some e)] s)
  end.

(** [main]: a turn more than there are lines is all the loop can take. *)
Definition main (inputs : list typed) (w : world) : option session :=
  main_with (S (length inputs)) inputs w.

(** A typed line that is not a number, and one that is. *)
Definition word (t : string) : typed := {| text := t; float_value := None |}.
Definition number (t : string) (v : float) : typed :=
  {| text := t; float_value := Some v |}.

(** ** An invariant of the tables *)

(** Every table the provider sends has the property [P]. *)
Definition provider_sends (P : gmap string float -> Prop)
    (p : nat -> endpoint -> http_response) : Prop :=
  forall n ep b rates,
    p n ep = HttpBody b -> conversion_rates b = Some rates -> P rates.

(** The table held and the table in the cache file have the property. *)
Definition store_holds (P : gmap string float -> Prop) (w : world) : Prop :=
  P (exchange_rates (obj w)) /\
  forall c rates, disk w = JsonObject c -> cj_rates c = Some rates -> P rates.

(** ** Vocabulary for the session's properties *)

(** The session once a menu choice has been read: the menu and the prompt
    are on the screen, [rest] is still to be typed. *)
Definition after_choice (s : session) (rest : list typed) : session :=
  {| stdin := rest; store := store s;
     screen := (screen s ++ menu) ++ [Asked (nl +:+ "Pilih menu (1-4): ")] |}.

(** The last line of a finished session: the goodbye, or the message of
    the outer handler. *)
Definition ended (s : session) : Prop :=
  last (screen s) = Some (Said msg_goodbye) \/
  exists e, last (screen s) = Some (Fatal e).

(** No typed line is the menu choice of the manual refresh. *)
Definition no_refresh (inputs : list typed) : Prop :=
  forall l, l ∈ inputs -> text l <> "3".

(** The main currencies that are keys of the table of [self], in the
    order of the list. *)
Definition listed (self : CurrencyConverter) : list string :=
  filter (fun c => is_Some (exchange_rates self !! c)) main_currencies.

(* ================================================================== *)
(** * Part II: properties *)
(* ================================================================== *)

(** ** Binary64 facts: one is a right unit of [*] and [/] *)

Section FloatUnit.

Lemma Prim2SF_one : Prim2SF 1%float = SFone64.
Proof. vm_compute. reflexivity. Qed.

Lemma Prim2SF_zero : Prim2SF 0%float = S754_zero false.
Proof. vm_compute. reflexivity. Qed.

Lemma canonical_fexp m e :
  canonical_mantissa prec emax m e = true ->
  fexp prec emax (Z.pos (digits2_pos m) + e) = e.
Proof. unfold canonical_mantissa. intros H. now apply Z.eqb_eq in H. Qed.

(** A canonical mantissa is not shifted by the rounding step. *)
Lemma shr_fexp_canonical m e :
  canonical_mantissa prec emax m e = true ->
  shr_fexp prec emax (Z.pos m) e loc_Exact
  = (Build_shr_record (Z.pos m) false false, e).
Proof.
  intros H. unfold shr_fexp. cbn [Zdigits2 shr_record_of_loc].
  rewrite (canonical_fexp _ _ H), Z.sub_diag. reflexivity.
Qed.

Lemma binary_round_aux_canonical s m e :
  bounded prec emax m e = true ->
  binary_round_aux prec emax s (Z.pos m) e loc_Exact = S754_finite s m e.
Proof.
  unfold bounded. intros [Hc Hb]%andb_true_iff.
  unfold binary_round_aux. rewrite (shr_fexp_canonical _ _ Hc).
  cbn [shr_m loc_of_shr_record round_nearest_even].
  rewrite (shr_fexp_canonical _ _ Hc). cbn [shr_m]. now rewrite Hb.
Qed.

Lemma digits2_pos_shift52 m :
  digits2_pos (4503599627370496 * m)%positive = (digits2_pos m + 52)%positive.
Proof. cbv [Pos.mul]. cbn [digits2_pos]. lia. Qed.

Lemma SFmul_one_r x :
  valid_binary x = true -> SF64mul x SFone64 = x.
Proof.
  destruct x as [s|s| |s m e]; cbn [SpecFloat.valid_binary]; intros H;
    try (destruct s; reflexivity); [reflexivity|].
  unfold SF64mul, SFmul, SFone64. rewrite xorb_false_r.
  pose proof H as Hb. unfold bounded in H.
  apply andb_true_iff in H as [Hc Hle].
  unfold binary_round_aux.
  assert (Hs : shr_fexp prec emax (Z.pos (m * 4503599627370496)) (e + -52) loc_Exact
               = (Build_shr_record (Z.pos m) false false, e)).
  { unfold shr_fexp. cbn [Zdigits2 shr_record_of_loc].
    rewrite Pos.mul_comm, digits2_pos_shift52.
    replace (Z.pos (digits2_pos m + 52) + (e + -52))
      with (Z.pos (digits2_pos m) + e) by lia.
    rewrite (canonical_fexp _ _ Hc).
    replace (e - (e + -52)) with 52 by lia.
    unfold shr. cbv [Pos.mul].
    cbn [SpecFloat.iter_pos shr_1 orb]. f_equal. lia. }
  rewrite Hs. cbn [shr_m loc_of_shr_record round_nearest_even].
  rewrite (shr_fexp_canonical _ _ Hc). cbn [shr_m]. now rewrite Hle.
Qed.

(** One binade below a canonical exponent: either the number sits at the
    bottom exponent, or the exponent drops by one. *)
Lemma fexp_pred_canonical m e :
  canonical_mantissa prec emax m e = true ->
  (e = emin /\ fexp prec emax (Z.pos (digits2_pos m) + e - 1) = e) \/
  (emin < e /\ fexp prec emax (Z.pos (digits2_pos m) + e - 1) = e - 1).
Proof.
  intros H%canonical_fexp. revert H.
  unfold fexp, SpecFloat.emin, prec, emax. lia.
Qed.

Lemma div_eucl_exact a b :
  0 < b -> Z.div_eucl (a * b) b = (a, 0).
Proof.
  intros Hb.
  pose proof (Z.div_mul a b ltac:(lia)) as Hq.
  pose proof (Z.mod_mul a b ltac:(lia)) as Hr.
  unfold Z.div, Z.modulo in Hq, Hr.
  destruct (Z.div_eucl (a * b) b) as [q r]. cbn in Hq, Hr. congruence.
Qed.

Lemma SFdiv_one_r x :
  valid_binary x = true -> SF64div x SFone64 = x.
Proof.
  destruct x as [s|s| |s m e]; cbn [SpecFloat.valid_binary]; intros H;
    try (destruct s; reflexivity); [reflexivity|].
  unfold SF64div, SFdiv, SFone64. rewrite xorb_false_r.
  pose proof H as Hb. unfold bounded in H.
  apply andb_true_iff in H as [Hc Hle].
  unfold SFdiv_core_binary. cbn [Zdigits2].
  change (digits2_pos 4503599627370496) with 53%positive.
  replace (Z.pos (digits2_pos m) + e - (53 + -52))
    with (Z.pos (digits2_pos m) + e - 1) by lia.
  destruct (fexp_pred_canonical _ _ Hc) as [[He Hf]|[He Hf]]; rewrite Hf.
  - (* bottom exponent: the quotient is the mantissa itself *)
    rewrite Z.min_l by lia.
    replace (e - -52 - e) with 52 by lia.
    replace (Z.shiftl (Z.pos m) 52) with (Z.pos m * 4503599627370496)
      by (rewrite Z.shiftl_mul_pow2 by lia; reflexivity).
    rewrite div_eucl_exact by lia.
    change (new_location 4503599627370496 0) with loc_Exact.
    now apply binary_round_aux_canonical.
  - (* otherwise one extra bit is produced and shifted out again *)
    rewrite Z.min_l by lia.
    replace (e - -52 - (e - 1)) with 53 by lia.
    replace (Z.shiftl (Z.pos m) 53) with (Z.pos m~0 * 4503599627370496)
      by (rewrite Z.shiftl_mul_pow2 by lia;
          change (2 ^ 53) with 9007199254740992; lia).
    rewrite div_eucl_exact by lia.
    change (new_location 4503599627370496 0) with loc_Exact.
    unfold binary_round_aux.
    assert (Hs : shr_fexp prec emax (Z.pos m~0) (e - 1) loc_Exact
                 = (Build_shr_record (Z.pos m) false false, e)).
    { unfold shr_fexp. cbn [Zdigits2 shr_record_of_loc digits2_pos].
      replace (Z.pos (Pos.succ (digits2_pos m)) + (e - 1))
        with (Z.pos (digits2_pos m) + e) by lia.
      rewrite (canonical_fexp _ _ Hc).
      replace (e - (e - 1)) with 1 by lia.
      unfold shr. cbn [SpecFloat.iter_pos shr_1 orb]. f_equal. lia. }
    rewrite Hs. cbn [shr_m loc_of_shr_record round_nearest_even].
    rewrite (shr_fexp_canonical _ _ Hc). cbn [shr_m]. now rewrite Hle.
Qed.

Lemma float_div_one (x : float) : (x / 1)%float = x.
Proof.
  apply Prim2SF_inj. rewrite div_spec, Prim2SF_one.
  apply SFdiv_one_r, Prim2SF_valid.
Qed.

Lemma float_mul_one (x : float) : (x * 1)%float = x.
Proof.
  apply Prim2SF_inj. rewrite mul_spec, Prim2SF_one.
  apply SFmul_one_r, Prim2SF_valid.
Qed.

Lemma float_one_nonzero : (1 =? 0)%float = false.
Proof. vm_compute. reflexivity. Qed.

(** A float above zero is not a zero. *)
Lemma float_pos_nonzero (r : float) :
  (0 <? r)%float = true -> (r =? 0)%float = false.
Proof.
  intros H. rewrite FloatAxioms.ltb_spec in H. rewrite FloatAxioms.eqb_spec.
  rewrite Prim2SF_zero in *.
  destruct (Prim2SF r) as [s|s| |s m e]; try destruct s;
    cbn in *; congruence.
Qed.

End FloatUnit.

(** ** Rounding *)

Section Rounding.

Lemma round_half_even_nearest p q :
  0 < q -> nearest_half_even p q (round_half_even p q).
Proof.
  intros Hq. unfold nearest_half_even, round_half_even.
  pose proof (Z.div_mod p q ltac:(lia)) as Hp.
  pose proof (Z.mod_pos_bound p q Hq) as Hr.
  set (d := p / q) in *. set (r := p mod q) in *.
  assert (Hd : d * q = p - r) by lia.
  destruct (Z.compare_spec (2 * r) q) as [He|Hl|Hg].
  - destruct (Z.even d) eqn:Hev.
    + rewrite Hd. split; [lia | auto].
    + replace ((d + 1) * q) with (p - r + q) by lia.
      split; [lia|]. intros _.
      rewrite Z.add_1_r, Z.even_succ, <- Z.negb_even, Hev. reflexivity.
  - rewrite Hd. split; lia.
  - replace ((d + 1) * q) with (p - r + q) by lia. split; lia.
Qed.

Lemma round_half_even_exact p : round_half_even p 1 = p.
Proof.
  unfold round_half_even. rewrite Z.mod_1_r, Z.div_1_r. reflexivity.
Qed.

(** [round(x, ndigits)] rounds half to even. *)
Lemma py_round_half_even x ndigits :
  rounded_half_even x ndigits (py_round x ndigits).
Proof.
  unfold rounded_half_even, py_round.
  destruct (Prim2SF x) as [s|s| |s m e]; try reflexivity.
  eexists. split; [apply round_half_even_nearest | reflexivity].
  apply Z.pow_pos_nonneg; lia.
Qed.

(** The quotient agrees with the kernel's reading of decimal literals. *)
Example nearest_float_literals :
  SF2Prim (nearest_float false 93 100) = 0.93%float /\
  SF2Prim (nearest_float false 15027 100) = 150.27%float /\
  SF2Prim (nearest_float true 7258 100) = (-72.58)%float.
Proof. vm_compute. repeat split. Qed.

(** The values CPython prints for these calls. *)
Example py_round_ties :
  py_round 0.125 2 = 0.12%float /\ py_round 0.375 2 = 0.38%float /\
  py_round 2.675 2 = 2.67%float /\ py_round (-0.001) 2 = (-0)%float.
Proof. vm_compute. repeat split. Qed.

End Rounding.

(** ** Letter case *)

Section LetterCase.

(** The equation of [utf8_decode] at a non-empty list. *)
Lemma utf8_decode_cons b0 l1 :
  utf8_decode (b0 :: l1) =
    if b0 <? 128 then b0 :: utf8_decode l1
    else
      match l1 with
      | [] => [escaped b0]
      | b1 :: l2 =>
          match two_bytes b0 b1 with
          | Some c => c :: utf8_decode l2
          | None =>
              match l2 with
              | [] => escaped b0 :: utf8_decode l1
              | b2 :: l3 =>
                  match three_bytes b0 b1 b2 with
                  | Some c => c :: utf8_decode l3
                  | None =>
                      match l3 with
                      | [] => escaped b0 :: utf8_decode l1
                      | b3 :: l4 =>
                          match four_bytes b0 b1 b2 b3 with
                          | Some c => c :: utf8_decode l4
                          | None => escaped b0 :: utf8_decode l1
                          end
                      end
                  end
              end
          end
      end.
Proof. destruct l1 as [|b1 [|b2 [|b3 l4]]]; reflexivity. Qed.

(** Facts about one byte, by cases on its eight bits. *)
Ltac each_byte a := destruct a as [[] [] [] [] [] [] [] []].

Lemma upper_ascii_high a :
  (byte_value a <? 128) = false -> upper_ascii a = a.
Proof. each_byte a; intros H; try reflexivity; discriminate H. Qed.

Lemma upper_ascii_low a :
  (byte_value (upper_ascii a) <? 128) = (byte_value a <? 128).
Proof. each_byte a; reflexivity. Qed.

Lemma upper_ascii_continuation a :
  continuation (byte_value (upper_ascii a)) = continuation (byte_value a).
Proof. each_byte a; reflexivity. Qed.

Lemma continuation_upper_ascii a :
  continuation (byte_value a) = true -> upper_ascii a = a.
Proof. each_byte a; intros H; try reflexivity; discriminate H. Qed.

Lemma toupper_upper_ascii a :
  (byte_value a <? 128) = true ->
  toupper (byte_value (upper_ascii a)) = toupper (byte_value a).
Proof. each_byte a; intros H; try discriminate H; vm_compute; reflexivity. Qed.

Lemma toupper_ascii a :
  (byte_value a <? 128) = true ->
  toupper (byte_value a) = [byte_value (upper_ascii a)].
Proof. each_byte a; intros H; try discriminate H; vm_compute; reflexivity. Qed.

Lemma two_bytes_upper_ascii b0 a1 :
  two_bytes b0 (byte_value (upper_ascii a1)) = two_bytes b0 (byte_value a1).
Proof.
  unfold two_bytes. rewrite upper_ascii_continuation.
  destruct (continuation (byte_value a1)) eqn:E; [|reflexivity].
  now rewrite (continuation_upper_ascii _ E).
Qed.

Lemma three_bytes_upper_ascii b0 a1 a2 :
  three_bytes b0 (byte_value (upper_ascii a1)) (byte_value (upper_ascii a2))
  = three_bytes b0 (byte_value a1) (byte_value a2).
Proof.
  unfold three_bytes. rewrite !upper_ascii_continuation.
  destruct (continuation (byte_value a1)) eqn:E1; [|reflexivity].
  destruct (continuation (byte_value a2)) eqn:E2; [|reflexivity].
  now rewrite (continuation_upper_ascii _ E1), (continuation_upper_ascii _ E2).
Qed.

Lemma four_bytes_upper_ascii b0 a1 a2 a3 :
  four_bytes b0 (byte_value (upper_ascii a1)) (byte_value (upper_ascii a2))
    (byte_value (upper_ascii a3))
  = four_bytes b0 (byte_value a1) (byte_value a2) (byte_value a3).
Proof.
  unfold four_bytes. rewrite !upper_ascii_continuation.
  destruct (continuation (byte_value a1)) eqn:E1; [|reflexivity].
  destruct (continuation (byte_value a2)) eqn:E2; [|reflexivity].
  destruct (continuation (byte_value a3)) eqn:E3; [|reflexivity].
  now rewrite (continuation_upper_ascii _ E1), (continuation_upper_ascii _ E2),
    (continuation_upper_ascii _ E3).
Qed.

(** Uppercasing the letters a..z first changes nothing in the result of
    the full mapping. *)
Lemma toupper_upper_letters_bounded n : forall l : list ascii,
  (length l <= n)%nat ->
  flat_map toupper (utf8_decode (map byte_value (map upper_ascii l)))
  = flat_map toupper (utf8_decode (map byte_value l)).
Proof.
  induction n as [|n IH]; intros l Hl.
  { destruct l; [reflexivity|cbn in Hl; lia]. }
  destruct l as [|a0 l1]; [reflexivity|]. cbn [length] in Hl.
  pose proof (IH l1 ltac:(lia)) as IH1.
  cbn [map]. rewrite !utf8_decode_cons, upper_ascii_low.
  destruct (byte_value a0 <? 128) eqn:E0.
  { cbn [flat_map]. now rewrite (toupper_upper_ascii _ E0), IH1. }
  rewrite (upper_ascii_high _ E0).
  destruct l1 as [|a1 l2]; [reflexivity|]. cbn [length] in Hl.
  pose proof (IH l2 ltac:(lia)) as IH2.
  cbn [map] in *. rewrite two_bytes_upper_ascii.
  destruct (two_bytes _ _); [cbn [flat_map]; now rewrite IH2|].
  destruct l2 as [|a2 l3]; [cbn [map] in *; cbn [flat_map]; now rewrite IH1|]. cbn [length] in Hl.
  pose proof (IH l3 ltac:(lia)) as IH3.
  cbn [map] in *. rewrite three_bytes_upper_ascii.
  destruct (three_bytes _ _ _); [cbn [flat_map]; now rewrite IH3|].
  destruct l3 as [|a3 l4]; [cbn [map] in *; cbn [flat_map]; now rewrite IH1|]. cbn [length] in Hl.
  pose proof (IH l4 ltac:(lia)) as IH4.
  cbn [map] in *. rewrite four_bytes_upper_ascii.
  destruct (four_bytes _ _ _ _); cbn [flat_map]; [now rewrite IH4|now rewrite IH1].
Qed.

Lemma list_ascii_upper_letters s :
  list_ascii_of_string (upper_letters s) = map upper_ascii (list_ascii_of_string s).
Proof. induction s as [|c s IH]; cbn; [|rewrite IH]; reflexivity. Qed.

Lemma upper_upper_letters s : upper (upper_letters s) = upper s.
Proof.
  unfold upper, code_points. rewrite list_ascii_upper_letters.
  now rewrite (toupper_upper_letters_bounded _ _ (le_n _)).
Qed.

(** Texts with the same letters have the same upper case. *)
Lemma upper_same_letters s s' : same_letters s s' -> upper s = upper s'.
Proof.
  unfold same_letters. intros H.
  now rewrite <- (upper_upper_letters s), H, upper_upper_letters.
Qed.

Lemma byte_of_value a : byte_of (byte_value a) = a.
Proof. unfold byte_of, byte_value. now rewrite N2Z.id, ascii_N_embedding. Qed.

(** On ASCII text [str.upper] is the uppercasing of the letters a..z. *)
Lemma upper_isascii s : isascii s = true -> upper s = upper_letters s.
Proof.
  unfold upper, code_points, of_code_points.
  induction s as [|c s IH]; [reflexivity|]. cbn [isascii].
  intros [Hc Hs]%andb_prop. cbn [list_ascii_of_string map].
  rewrite utf8_decode_cons, Hc. cbn [flat_map].
  rewrite (toupper_ascii _ Hc). cbn [app flat_map]. unfold utf8_encode at 1.
  rewrite upper_ascii_low, Hc. cbn [app map string_of_list_ascii upper_letters].
  now rewrite byte_of_value, (IH Hs).
Qed.

(** [str.upper] at some texts: a dotless i and a long s reach the ASCII
    letters, a sharp s becomes two letters. *)
Example upper_samples :
  upper "usd" = "USD" /\ upper "Idr" = "IDR" /\ upper "ıdr" = "IDR" /\
  upper "uſd" = "USD" /\ upper "straße" = "STRASSE" /\ upper "€ 10" = "€ 10".
Proof. vm_compute. repeat split. Qed.

End LetterCase.

(** ** [convert] *)

Section Convert.

Implicit Types (self : CurrencyConverter) (amount : float).

(** The outcome of [convert] once both rates are found. *)
Lemma convert_found self amount f t rf rt :
  exchange_rates self !! upper f = Some rf ->
  exchange_rates self !! upper t = Some rt ->
  convert self amount f t =
    match truediv amount rf with
    | Ok q => Ok (py_round (q * rt) 2)
    | Raise e => Raise e
    end.
Proof. intros Hf Ht. unfold convert. rewrite Hf, Ht. reflexivity. Qed.

Lemma truediv_nonzero x y :
  (y =? 0)%float = false -> truediv x y = Ok (x / y)%float.
Proof. intros H. unfold truediv. rewrite H. reflexivity. Qed.

Lemma convert_value self amount f t rf rt :
  exchange_rates self !! upper f = Some rf ->
  exchange_rates self !! upper t = Some rt ->
  (rf =? 0)%float = false ->
  convert self amount f t = Ok (py_round (amount / rf * rt) 2).
Proof.
  intros Hf Ht Hz. rewrite (convert_found _ _ _ _ _ _ Hf Ht).
  rewrite truediv_nonzero by assumption. reflexivity.
Qed.

Lemma convert_missing self amount f t :
  exchange_rates self !! upper f = None \/ exchange_rates self !! upper t = None ->
  convert self amount f t = Raise UnsupportedCurrency.
Proof.
  unfold convert. intros [H|H]; rewrite H; [reflexivity|].
  destruct (exchange_rates self !! upper f); reflexivity.
Qed.

(** A zero source rate makes the division raise, as Python's [/] does. *)
Example convert_zero_rate :
  convert (holding {[ "USD" := 1%float; "XTS" := 0%float ]}) 1 "xts" "usd"
  = Raise ZeroDivisionError.
Proof. vm_compute. reflexivity. Qed.

Lemma convert_case self amount f t f' t' :
  upper f' = upper f -> upper t' = upper t ->
  convert self amount f' t' = convert self amount f t.
Proof. intros Hf Ht. unfold convert. rewrite Hf, Ht. reflexivity. Qed.

End Convert.

(** ** The claims about [convert] *)

Section ConvertClaims.

Implicit Types (self : CurrencyConverter) (amount : float).

Lemma default_rates_positive : positive_rates default_rates.
Proof.
  unfold positive_rates, default_rates. intros k r.
  repeat (rewrite lookup_insert; case_decide; [intros [= <-]; reflexivity|]).
  rewrite lookup_singleton. case_decide; [intros [= <-]; reflexivity|discriminate].
Qed.

(** C1.  When the uppercased codes are both keys of the rate table,
    [convert(amount, from, to)] is the Python expression
    [round(amount / rate[from] * rate[to], 2)]: it has the outcome of that
    expression in every case, it returns its value whenever the quotient
    is defined (the source rate is not zero), and the rounding is to two
    decimals, half to even. *)
Theorem convert_pivot_formula self amount f t rf rt :
  exchange_rates self !! upper f = Some rf ->
  exchange_rates self !! upper t = Some rt ->
  convert self amount f t =
    match truediv amount rf with
    | Ok q => Ok (py_round (q * rt) 2)
    | Raise e => Raise e
    end /\
  ((rf =? 0)%float = false ->
   convert self amount f t = Ok (py_round (amount / rf * rt) 2)) /\
  rounded_half_even (amount / rf * rt) 2 (py_round (amount / rf * rt) 2).
Proof.
  intros Hf Ht. split; [|split].
  - now apply convert_found.
  - now apply convert_value.
  - apply py_round_half_even.
Qed.

Lemma convert_pivot_formula_witness :
  convert (holding default_rates) 50 "eur" "sgd"
  = Ok (py_round (50 / 0.93 * 1.35) 2) /\
  py_round (50 / 0.93 * 1.35) 2 = 72.58%float.
Proof.
  split.
  - apply (convert_pivot_formula (holding default_rates) 50 "eur" "sgd"
             0.93 1.35); vm_compute; reflexivity.
  - vm_compute. reflexivity.
Defined.

(** C2.  [convert] fails with the unsupported-currency error exactly when
    one of the two codes, uppercased by [str.upper], is not a key of the
    rate table.  The outcome does not depend on the letter case of the
    codes: codes with the same upper case have the same outcome, and so
    have codes that differ only in the case of the letters a..z; for
    ASCII codes the keys looked up are the codes with a..z moved to A..Z.
    The call leaves the world, hence the stored table and timestamp, as
    it was. *)
Theorem convert_unsupported_iff self amount f t :
  (convert self amount f t = Raise UnsupportedCurrency <->
   exchange_rates self !! upper f = None \/
   exchange_rates self !! upper t = None) /\
  (forall f' t', upper f' = upper f -> upper t' = upper t ->
     convert self amount f' t' = convert self amount f t) /\
  (forall f' t', same_letters f' f -> same_letters t' t ->
     convert self amount f' t' = convert self amount f t) /\
  (isascii f = true -> isascii t = true ->
   (convert self amount f t = Raise UnsupportedCurrency <->
    exchange_rates self !! upper_letters f = None \/
    exchange_rates self !! upper_letters t = None)) /\
  (forall w, convert_call amount f t w = (convert (obj w) amount f t, w)).
Proof.
  assert (Hiff : convert self amount f t = Raise UnsupportedCurrency <->
            exchange_rates self !! upper f = None \/
            exchange_rates self !! upper t = None).
  { split; [|apply convert_missing].
    unfold convert, truediv.
    destruct (exchange_rates self !! upper f) as [rf|]; [|auto].
    destruct (exchange_rates self !! upper t) as [rt|]; [|auto].
    destruct (rf =? 0)%float; discriminate. }
  split; [exact Hiff|split; [|split; [|split]]].
  - intros f' t'. apply convert_case.
  - intros f' t' Hf Ht. apply convert_case; now apply upper_same_letters.
  - intros Hf Ht. now rewrite <- (upper_isascii _ Hf), <- (upper_isascii _ Ht).
  - reflexivity.
Qed.

(** The codes of a request in lower case, and in letters that only
    [str.upper] takes to ASCII, on the default table. *)
Example convert_letter_case :
  convert (holding default_rates) 100 "usd" "idr" = Ok 1560000%float /\
  convert (holding default_rates) 100 "Usd" "IdR" = Ok 1560000%float /\
  convert (holding default_rates) 100 "usd" "ıdr" = Ok 1560000%float /\
  convert (holding default_rates) 100 "usd" "rp" = Raise UnsupportedCurrency.
Proof. vm_compute. repeat split. Qed.

(** C6 fails as stated: with the default table, 0.375 SGD converted to SGD
    is 0.37, while [round(0.375, 2)] is 0.38 (0.375 / 1.35 * 1.35 is
    0.37499999999999994 in binary64). *)
Lemma convert_self_counterexample :
  exchange_rates (holding default_rates) !! "SGD" = Some 1.35%float /\
  (0.375 / 1.35 * 1.35)%float = 0.37499999999999994%float /\
  convert (holding default_rates) 0.375 "SGD" "SGD" = Ok 0.37%float /\
  py_round 0.375 2 = 0.38%float /\
  convert (holding default_rates) 0.375 "SGD" "SGD" <> Ok (py_round 0.375 2).
Proof.
  repeat split; try (vm_compute; reflexivity).
  intros H. apply (f_equal datum_of) in H. vm_compute in H. discriminate.
Qed.

(** C6, amended.  For a code whose rate [r] is present and not zero,
    [convert(amount, C, C)] is [round(amount / r * r, 2)]; it is
    [round(amount, 2)] whenever the binary64 quotient and product give
    [amount] back, as they always do for the rate 1.0. *)
Theorem convert_self self amount c r :
  exchange_rates self !! upper c = Some r ->
  (r =? 0)%float = false ->
  convert self amount c c = Ok (py_round (amount / r * r) 2) /\
  ((amount / r * r)%float = amount ->
   convert self amount c c = Ok (py_round amount 2)) /\
  (r = 1%float -> convert self amount c c = Ok (py_round amount 2)).
Proof.
  intros Hc Hz.
  assert (H : convert self amount c c = Ok (py_round (amount / r * r) 2))
    by now apply convert_value.
  split; [exact H|split].
  - intros E. now rewrite H, E.
  - intros ->. now rewrite H, float_div_one, float_mul_one.
Qed.

Lemma convert_self_witness :
  convert (holding default_rates) 0.375 "usd" "usd" = Ok 0.38%float.
Proof.
  apply (proj2 (proj2 (convert_self (holding default_rates) 0.375 "usd" 1
                         ltac:(vm_compute; reflexivity)
                         ltac:(vm_compute; reflexivity)))).
  reflexivity.
Defined.

(** C7 fails as stated: the claim asks only that "USD" be a key.  In a
    table that holds USD at 2.0, one USD converts to 0.47 EUR, not to
    [round(1 * 0.93, 2)]. *)
Lemma convert_usd_pair_counterexample :
  let t := skewed_rates in
  is_Some (t !! "USD") /\ t !! "EUR" = Some 0.93%float /\
  convert (holding t) 1 "USD" "EUR" = Ok 0.47%float /\
  py_round (1 * 0.93) 2 = 0.93%float /\
  convert (holding t) 1 "USD" "EUR" <> Ok (py_round (1 * 0.93) 2).
Proof.
  cbv zeta. repeat split; try (vm_compute; reflexivity).
  - eexists. vm_compute. reflexivity.
  - intros H. apply (f_equal datum_of) in H. vm_compute in H. discriminate.
Qed.

(** C7, amended.  When the table holds USD at the rate 1.0 and a rate [r]
    for X, [convert(amount, "USD", X)] is [round(amount * r, 2)], and, for
    [r] not zero, [convert(amount, X, "USD")] is [round(amount / r, 2)]. *)
Theorem convert_usd_pair self amount x r :
  exchange_rates self !! "USD" = Some 1%float ->
  exchange_rates self !! upper x = Some r ->
  convert self amount "USD" x = Ok (py_round (amount * r) 2) /\
  ((r =? 0)%float = false ->
   convert self amount x "USD" = Ok (py_round (amount / r) 2)).
Proof.
  intros Hu Hx. split.
  - rewrite (convert_value self amount "USD" x 1 r Hu Hx float_one_nonzero).
    now rewrite float_div_one.
  - intros Hz.
    rewrite (convert_value self amount x "USD" r 1 Hx Hu Hz).
    now rewrite float_mul_one.
Qed.

Lemma convert_usd_pair_witness :
  convert (holding default_rates) 100 "USD" "idr" = Ok 1560000%float /\
  convert (holding default_rates) 15600 "idr" "USD" = Ok 1%float.
Proof.
  pose proof (convert_usd_pair (holding default_rates)) as H.
  split.
  - apply (proj1 (H 100%float "idr" 15600%float
                    ltac:(vm_compute; reflexivity) ltac:(vm_compute; reflexivity))).
  - apply (proj2 (H 15600%float "idr" 15600%float
                    ltac:(vm_compute; reflexivity) ltac:(vm_compute; reflexivity))).
    vm_compute. reflexivity.
Defined.

(** C10.  Over a table whose rates are all strictly positive, the only
    exception [convert] can raise is the unsupported-currency error, and
    it returns a value whenever both uppercased codes are keys: the
    divisor is never zero. *)
Theorem convert_safe self :
  positive_rates (exchange_rates self) ->
  forall amount f t,
    (forall e, convert self amount f t = Raise e -> e = UnsupportedCurrency) /\
    (is_Some (exchange_rates self !! upper f) ->
     is_Some (exchange_rates self !! upper t) ->
     exists v, convert self amount f t = Ok v).
Proof.
  intros Hpos amount f t. split.
  - intros e. unfold convert.
    destruct (exchange_rates self !! upper f) as [rf|] eqn:Hf; [|congruence].
    destruct (exchange_rates self !! upper t) as [rt|]; [|congruence].
    rewrite truediv_nonzero by (eapply float_pos_nonzero, Hpos, Hf).
    discriminate.
  - intros [rf Hf] [rt Ht]. eexists.
    apply (convert_value _ _ _ _ _ _ Hf Ht).
    eapply float_pos_nonzero, Hpos, Hf.
Qed.

Lemma convert_safe_witness :
  exists v, convert (holding default_rates) 2.5 "myr" "jpy" = Ok v.
Proof.
  apply (convert_safe (holding default_rates) default_rates_positive
           2.5 "myr" "jpy"); eexists; vm_compute; reflexivity.
Defined.

End ConvertClaims.

(** ** [fetch_latest_rates] *)

Section Fetch.

(** Every way through [fetch_latest_rates]. *)
Ltac fetch_paths w :=
  unfold fetch_latest_rates, try_except, bind, requests_get, getitem,
    set_supported_currencies, set_exchange_rates, set_last_update,
    datetime_now, save_to_cache, print, raise, ret;
  cbn;
  destruct (provider w (requests w) Codes) as [|b1] eqn:E1; cbn;
  [|destruct (supported_codes b1) as [codes|] eqn:Ec; cbn;
    [destruct (provider w (S (requests w)) LatestUSD) as [|b2] eqn:E2; cbn;
     [|destruct (result_field b2) as [status|] eqn:Es; cbn;
       [destruct (String.eqb status "success") eqn:Eq; cbn;
        [apply String.eqb_eq in Eq; subst status;
         destruct (conversion_rates b2) as [rates|] eqn:Er; cbn;
         [destruct (disk_writable w) eqn:Ew; cbn|]
        |apply String.eqb_neq in Eq]
       |]]
    |]].

Lemma fetch_latest_rates_inv w :
  let r := fst (fetch_latest_rates w) in
  let w' := snd (fetch_latest_rates w) in
  same_env w w' /\ (requests w < requests w')%nat /\
  match r with
  | Ok true =>
      exists codes rates,
        reports_success w codes rates /\ disk_writable w = true /\
        obj w' = fetched codes rates (clock w (ticks w)) /\
        disk w' = record_of (obj w') /\
        ticks w' = S (ticks w)
  | Ok false =>
      same_store w w' /\ ticks w' = ticks w /\
      ~ (exists codes rates, reports_success w codes rates)
  | Raise e =>
      disk w' = disk w /\
      ((exists key, e = KeyError key) /\ same_store w w' /\
       ticks w' = ticks w /\ ~ bodies_complete w
       \/
       e = OSError /\ disk_writable w = false /\ ticks w' = S (ticks w) /\
       exists codes rates,
         reports_success w codes rates /\
         obj w' = fetched codes rates (clock w (ticks w)))
  end.
Proof.
  cbv zeta. unfold same_env, same_store, reports_success, bodies_complete.
  fetch_paths w.
  all: repeat match goal with |- _ /\ _ => split end;
    try reflexivity; try lia; try assumption.
  all: try (intros (? & ? & ? & ? & ?); intuition congruence).
  - exists codes, rates. repeat split; eauto 10.
  - right. repeat split; eauto 10.
  - left. repeat split; eauto.
    intros H. destruct (H _ eq_refl) as [_ H2].
    destruct (H2 _ eq_refl) as (st & Hst & Hr). rewrite Es in Hst.
    injection Hst as <-. destruct (Hr eq_refl). congruence.
  - left. repeat split; eauto.
    intros H. destruct (H _ eq_refl) as [_ H2].
    destruct (H2 _ eq_refl) as (? & ? & ?). congruence.
  - left. repeat split; eauto.
    intros H. destruct (H _ eq_refl) as [[? ?] _]. congruence.
Qed.

(** The fetch leaves the key attribute alone. *)
Lemma fetch_API_KEY w : API_KEY (snd (fetch_latest_rates w)) = API_KEY w.
Proof. fetch_paths w; reflexivity. Qed.

(** A failing request makes the method print the error and return
    [False]. *)
Lemma fetch_first_request_fails w :
  provider w (requests w) Codes = HttpFailure ->
  fst (fetch_latest_rates w) = Ok false /\
  last (console (snd (fetch_latest_rates w))) = Some (FetchError RequestException).
Proof.
  intros H. fetch_paths w; try congruence. split; [reflexivity|apply last_snoc].
Qed.

Lemma fetch_second_request_fails w first listed :
  provider w (requests w) Codes = HttpBody first ->
  supported_codes first = Some listed ->
  provider w (S (requests w)) LatestUSD = HttpFailure ->
  fst (fetch_latest_rates w) = Ok false /\
  last (console (snd (fetch_latest_rates w))) = Some (FetchError RequestException).
Proof.
  intros H1 Hc H2. fetch_paths w; try congruence.
  split; [reflexivity|apply last_snoc].
Qed.

Lemma reports_success_complete w codes rates :
  reports_success w codes rates -> bodies_complete w.
Proof.
  intros (b1 & b2 & E1 & Ec & E2 & Es & Er) b1' E1'.
  rewrite E1 in E1'. injection E1' as <-. split; [eauto|].
  intros b2' E2'. rewrite E2 in E2'. injection E2' as <-. eauto.
Qed.

(** With complete bodies and a writable cache file the method returns a
    boolean, and [True] exactly on a reported success. *)
Lemma fetch_returns_bool w :
  bodies_complete w -> disk_writable w = true ->
  exists b, fst (fetch_latest_rates w) = Ok b /\
    (b = true <-> exists codes rates, reports_success w codes rates).
Proof.
  intros Hb Hw. pose proof (fetch_latest_rates_inv w) as H. cbv zeta in H.
  destruct (fetch_latest_rates w) as [r w']. cbn [fst snd] in *.
  destruct H as (_ & _ & H). destruct r as [[]|e].
  - exists true. split; [reflexivity|].
    destruct H as (codes & rates & Hs & _). split; eauto.
  - exists false. split; [reflexivity|].
    destruct H as (_ & _ & Hn). split; [discriminate|]. intros Hs. now destruct Hn.
  - destruct H as (_ & [(_ & _ & _ & Hn)|(_ & Hf & _)]); [now destruct Hn|congruence].
Qed.

End Fetch.

(** ** [load_or_update_rates] *)

Section Load.

Arguments fetch_latest_rates : simpl never.

Lemma timedelta_days_lt_1 d :
  (timedelta_days d <? 1) = true <-> d < us_per_day.
Proof.
  unfold timedelta_days, us_per_day, us_per_second. rewrite Z.ltb_lt.
  split; intros H.
  - apply Z.nle_gt. intros Hge.
    pose proof (Z.div_le_mono _ _ (86400 * 1000000) ltac:(lia) Hge) as Hd.
    rewrite Z.div_same in Hd by lia. lia.
  - assert (d / (86400 * 1000000) <= 0); [|lia].
    apply Z.lt_succ_r, Z.div_lt_upper_bound; lia.
Qed.

Lemma timedelta_days_ge_1 d :
  (timedelta_days d <? 1) = false <-> us_per_day <= d.
Proof.
  pose proof (timedelta_days_lt_1 d) as H.
  destruct (timedelta_days d <? 1); split; intros; try discriminate; lia.
Qed.

(** For a cache that is not from the future, "less than a day old" is
    "zero whole days old". *)
Lemma timedelta_days_zero d :
  0 <= d -> (timedelta_days d = 0 <-> d < us_per_day).
Proof.
  intros Hd. unfold timedelta_days, us_per_day, us_per_second. split.
  - intros H. apply Z.div_small_iff in H; lia.
  - intros H. apply Z.div_small. lia.
Qed.

(** A recent, complete cache is adopted and nothing else happens. *)
Lemma load_fresh w c secs rates :
  cache_stamped w c secs -> cj_rates c = Some rates ->
  cache_age w secs < us_per_day ->
  load_or_update_rates w
  = (Ok tt,
     with_obj {| exchange_rates := rates; last_update := Some (Stamp secs);
                 supported_currencies := supported_currencies (obj w) |}
              (tick w)).
Proof.
  intros [Hd Hs] Hr Hage. apply timedelta_days_lt_1 in Hage.
  unfold cache_age in Hage.
  unfold load_or_update_rates, try_except, bind, os_path_exists,
    load_from_cache, bind, json_load.
  repeat (progress (rewrite ?Hd, ?Hs, ?Hage, ?Hr; cbn)). reflexivity.
Qed.

(** An unusable cache sends the method straight to the handler: the
    defaults are installed, stamped with the latest clock reading, and no
    request is sent. *)
Lemma load_unusable w :
  cache_unusable w ->
  let w' := snd (load_or_update_rates w) in
  fst (load_or_update_rates w) = Ok tt /\
  requests w' = requests w /\
  obj w' = defaulted (obj w) (clock w (pred (ticks w'))) /\
  (ticks w < ticks w')%nat /\
  disk w' = disk w /\ same_env w w'.
Proof.
  unfold cache_unusable, object_unusable, cache_age, same_env.
  unfold load_or_update_rates, try_except, bind, os_path_exists,
    load_from_cache, bind, json_load.
  intros [H|[H|[H|(c & H & Hc)]]]; repeat (progress (rewrite ?H; cbn)).
  1-3: repeat split; try rewrite H; auto.
  destruct Hc as [Hc|[Hc|[(text & Hc)|(secs & Hc & Hage & Hr)]]];
    repeat (progress (rewrite ?Hc; cbn)).
  1-3: repeat split; try rewrite H; auto.
  apply timedelta_days_lt_1 in Hage.
  repeat (progress (rewrite ?Hage, ?Hr; cbn)).
  repeat split; try rewrite H; auto.
Qed.

(** Without a cache file the method goes to the network at once. *)
Lemma load_absent w :
  disk w = NoFile ->
  load_or_update_rates w = after_fetch (fetch_latest_rates w).
Proof.
  intros H.
  unfold load_or_update_rates, try_except, bind, os_path_exists, after_fetch.
  rewrite H. cbn.
  destruct (fetch_latest_rates w) as [[[]|e] w1]; reflexivity.
Qed.

(** With a stale cache it goes to the network after reading the clock. *)
Lemma load_stale w :
  cache_stale w ->
  load_or_update_rates w = after_fetch (fetch_latest_rates (tick w)).
Proof.
  intros (c & secs & [Hd Hs] & Hage). apply timedelta_days_ge_1 in Hage.
  unfold cache_age in Hage.
  unfold load_or_update_rates, try_except, bind, os_path_exists,
    load_from_cache, bind, json_load, after_fetch.
  repeat (progress (rewrite ?Hd, ?Hs, ?Hage; cbn)).
  destruct (fetch_latest_rates (tick w)) as [[[]|e] w1]; reflexivity.
Qed.

(** The four situations of the cache file cover every world. *)
Lemma cache_cases w :
  disk w = NoFile \/ cache_unusable w \/ cache_stale w \/
  exists c secs rates,
    cache_stamped w c secs /\ cj_rates c = Some rates /\
    cache_age w secs < us_per_day.
Proof.
  unfold cache_unusable, cache_stale, cache_stamped.
  set (cache_unusable' c :=
         JsonObject c = Unreadable \/ JsonObject c = Malformed \/
         JsonObject c = JsonNotObject \/
         exists c0, JsonObject c = JsonObject c0 /\ object_unusable w c0).
  destruct (disk w) as [| | | |c] eqn:Hd; auto 6.
  assert (Hbad : object_unusable w c -> cache_unusable' c)
    by (intros H; do 3 right; eauto).
  unfold object_unusable in Hbad.
  destruct (cj_last_update c) as [[[secs|text]|]|] eqn:Hs;
    [|right; left; apply Hbad; eauto..].
  destruct (Z.lt_ge_cases (cache_age w secs) us_per_day) as [Hage|Hage].
  - destruct (cj_rates c) as [rates|] eqn:Hr; [eauto 10|].
    right; left. apply Hbad. do 3 right. eauto.
  - right; right; left. eauto 10.
Qed.

(** The outcome of the fetch decides between the fetched table and the
    defaults; a request has been sent either way. *)
Lemma after_fetch_inv w0 :
  let w1 := snd (fetch_latest_rates w0) in
  let w' := snd (after_fetch (fetch_latest_rates w0)) in
  fst (after_fetch (fetch_latest_rates w0)) = Ok tt /\
  same_env w0 w' /\ (requests w0 < requests w')%nat /\
  (fst (fetch_latest_rates w0) = Ok true /\ w' = w1 \/
   fst (fetch_latest_rates w0) <> Ok true /\
   obj w' = defaulted (obj w1) (clock w0 (ticks w1)) /\
   disk w' = disk w1 /\ ticks w' = S (ticks w1)).
Proof.
  cbv zeta. pose proof (fetch_latest_rates_inv w0) as H. cbv zeta in H.
  destruct (fetch_latest_rates w0) as [r w1]. cbn [fst snd] in *.
  destruct H as ((Hc & Hp & Hk & Hw) & Hreq & H).
  unfold after_fetch, same_env.
  destruct r as [[]|e]; cbn; rewrite ?Hc; repeat split; auto.
  all: right; repeat split; auto; discriminate.
Qed.

(** The load returns on every way through it, and leaves the key
    attribute alone. *)
Lemma load_returns w : fst (load_or_update_rates w) = Ok tt.
Proof.
  destruct (cache_cases w) as [H|[H|[H|(c & secs & rates & Hc & Hr & Hage)]]].
  - rewrite (load_absent _ H). apply after_fetch_inv.
  - apply load_unusable, H.
  - rewrite (load_stale _ H). apply after_fetch_inv.
  - now rewrite (load_fresh _ _ _ _ Hc Hr Hage).
Qed.

Lemma after_fetch_API_KEY w0 :
  API_KEY (snd (after_fetch (fetch_latest_rates w0))) = API_KEY w0.
Proof.
  pose proof (fetch_API_KEY w0) as H. unfold after_fetch.
  destruct (fetch_latest_rates w0) as [[[]|e] w1]; exact H.
Qed.

Lemma load_API_KEY w : API_KEY (snd (load_or_update_rates w)) = API_KEY w.
Proof.
  destruct (cache_cases w) as [H|[H|[H|(c & secs & rates & Hc & Hr & Hage)]]].
  - rewrite (load_absent _ H). apply after_fetch_API_KEY.
  - revert H. unfold cache_unusable, object_unusable, cache_age.
    unfold load_or_update_rates, try_except, bind, os_path_exists,
      load_from_cache, bind, json_load.
    intros [H|[H|[H|(c & H & Hc)]]]; repeat (progress (rewrite ?H; cbn));
      try reflexivity.
    destruct Hc as [Hc|[Hc|[(text & Hc)|(secs & Hc & Hage & Hr)]]];
      repeat (progress (rewrite ?Hc; cbn)); try reflexivity.
    apply timedelta_days_lt_1 in Hage.
    repeat (progress (rewrite ?Hage, ?Hr; cbn)). reflexivity.
  - rewrite (load_stale _ H). apply (after_fetch_API_KEY (tick w)).
  - now rewrite (load_fresh _ _ _ _ Hc Hr Hage).
Qed.

End Load.

(** ** The pivot invariant through the methods *)

Section Pivot.

Lemma default_rates_pivot : pivot_ok default_rates.
Proof.
  intros r H. assert (E : default_rates !! "USD" = Some 1%float) by reflexivity.
  rewrite E in H. congruence.
Qed.

Lemma record_pivot o : pivot_ok (exchange_rates o) -> disk_pivot_ok (record_of o).
Proof. intros H c rates [= <-] [= <-]. exact H. Qed.

Lemma reports_success_pivot w codes rates :
  provider_pivot_ok (provider w) -> reports_success w codes rates ->
  pivot_ok rates.
Proof. intros Hp (b1 & b2 & _ & _ & E2 & _ & Er). exact (Hp _ _ _ _ E2 Er). Qed.

Lemma fetch_pivot w :
  provider_pivot_ok (provider w) -> store_pivot_ok w ->
  store_pivot_ok (snd (fetch_latest_rates w)).
Proof.
  intros Hp [Ho Hd]. pose proof (fetch_latest_rates_inv w) as H. cbv zeta in H.
  destruct (fetch_latest_rates w) as [r w']. cbn [fst snd] in *.
  destruct H as (_ & _ & H). unfold store_pivot_ok.
  destruct r as [[]|e].
  - destruct H as (codes & rates & Hs & _ & Hobj & Hdisk & _).
    assert (pivot_ok (exchange_rates (obj w')))
      by (rewrite Hobj; exact (reports_success_pivot _ _ _ Hp Hs)).
    split; [assumption|]. rewrite Hdisk. now apply record_pivot.
  - destruct H as ((Hr & _ & Hk) & _). now rewrite Hr, Hk.
  - destruct H as (Hk & [(_ & (Hr & _) & _)|(_ & _ & _ & codes & rates & Hs & Hobj)]).
    + now rewrite Hr, Hk.
    + rewrite Hk, Hobj. split; [|assumption].
      exact (reports_success_pivot _ _ _ Hp Hs).
Qed.

Lemma fetch_env w : same_env w (snd (fetch_latest_rates w)).
Proof. apply fetch_latest_rates_inv. Qed.

Lemma after_fetch_pivot w0 :
  provider_pivot_ok (provider w0) -> disk_pivot_ok (disk w0) ->
  store_pivot_ok (snd (after_fetch (fetch_latest_rates w0))).
Proof.
  intros Hp Hd.
  pose proof (fetch_latest_rates_inv w0) as H. cbv zeta in H.
  unfold after_fetch.
  destruct (fetch_latest_rates w0) as [r w1]. cbn [fst snd] in *.
  destruct H as (_ & _ & H). unfold store_pivot_ok.
  destruct r as [[]|e]; cbn.
  - destruct H as (codes & rates & Hs & _ & Hobj & Hdisk & _).
    assert (pivot_ok (exchange_rates (obj w1)))
      by (rewrite Hobj; exact (reports_success_pivot _ _ _ Hp Hs)).
    split; [assumption|]. rewrite Hdisk. now apply record_pivot.
  - destruct H as ((_ & _ & Hk) & _). rewrite Hk.
    split; [apply default_rates_pivot|assumption].
  - destruct H as (Hk & _). rewrite Hk.
    split; [apply default_rates_pivot|assumption].
Qed.

Lemma load_env w : same_env w (snd (load_or_update_rates w)).
Proof.
  destruct (cache_cases w) as [H|[H|[H|(c & secs & rates & Hc & Hr & Hage)]]].
  - rewrite (load_absent _ H). apply after_fetch_inv.
  - apply load_unusable, H.
  - rewrite (load_stale _ H).
    destruct (after_fetch_inv (tick w)) as (_ & He & _). exact He.
  - rewrite (load_fresh _ _ _ _ Hc Hr Hage). repeat split.
Qed.

Lemma load_pivot w :
  provider_pivot_ok (provider w) -> disk_pivot_ok (disk w) ->
  store_pivot_ok (snd (load_or_update_rates w)).
Proof.
  intros Hp Hd.
  destruct (cache_cases w) as [H|[H|[H|(c & secs & rates & Hc & Hr & Hage)]]].
  - rewrite (load_absent _ H). now apply after_fetch_pivot.
  - destruct (load_unusable _ H) as (_ & _ & Hobj & _ & Hk & _).
    unfold store_pivot_ok. rewrite Hobj, Hk.
    split; [apply default_rates_pivot|assumption].
  - rewrite (load_stale _ H). now apply after_fetch_pivot.
  - rewrite (load_fresh _ _ _ _ Hc Hr Hage). split; cbn; [|assumption].
    destruct Hc as [Hc _]. exact (Hd _ _ Hc Hr).
Qed.

(** The two ways through [__init__]. *)
Lemma init_cases w :
  falsy (credential w) = true /\
  __init__ w = (Raise (ValueError "API Key tidak ditemukan"), keyed w)
  \/
  falsy (credential w) = false /\
  __init__ w = load_or_update_rates (with_obj blank (keyed w)).
Proof.
  unfold __init__, keyed, credential, load_dotenv, bind, os_getenv,
    set_API_KEY, reset_attributes, raise.
  destruct (getenv_API_KEY w) as [[|c key]|] eqn:Hg;
    [|cbn; rewrite Hg; cbn; auto|].
  - cbn. rewrite Hg. cbn. auto.
  - destruct (dotenv_API_KEY w) as [[|c key]|] eqn:Hd; cbn; rewrite ?Hg; cbn; auto.
Qed.

(** [keyed] changes the environment and the key attribute only. *)
Lemma keyed_frame w :
  obj (keyed w) = obj w /\ disk (keyed w) = disk w /\
  disk_writable (keyed w) = disk_writable w /\
  ticks (keyed w) = ticks w /\ clock (keyed w) = clock w /\
  requests (keyed w) = requests w /\ provider (keyed w) = provider w /\
  console (keyed w) = console w.
Proof.
  unfold keyed, load_dotenv.
  destruct (getenv_API_KEY w), (dotenv_API_KEY w); cbn; repeat split.
Qed.

(** No operation changes the clock, the provider or the permission to
    write the cache file. *)
Lemma run_env o w :
  clock (run o w) = clock w /\ provider (run o w) = provider w /\
  disk_writable (run o w) = disk_writable w.
Proof.
  assert (Hsame : forall w', same_env w w' ->
            clock w' = clock w /\ provider w' = provider w /\
            disk_writable w' = disk_writable w)
    by (intros w' (? & ? & ? & ?); auto).
  destruct o; cbn [run].
  - destruct (keyed_frame w) as (_ & _ & Hw & _ & Hc & _ & Hp & _).
    destruct (init_cases w) as [[_ ->]|[_ ->]]; cbn [snd]; [auto|].
    destruct (load_env (with_obj blank (keyed w))) as (Hc' & Hp' & _ & Hw').
    cbn in Hc', Hp', Hw'. rewrite Hc', Hp', Hw'. auto.
  - apply Hsame, fetch_env.
  - apply Hsame. unfold update_from_api, bind.
    pose proof (fetch_env w) as H.
    destruct (fetch_latest_rates w) as [[[]|e] w']; exact H.
  - unfold save_to_cache. destruct (disk_writable w) eqn:E; cbn; auto.
  - repeat split.
Qed.

Lemma run_pivot o w :
  provider_pivot_ok (provider w) -> store_pivot_ok w ->
  store_pivot_ok (run o w).
Proof.
  intros Hp Hs. destruct o; cbn [run].
  - destruct (keyed_frame w) as (Ho & Hd & _ & _ & _ & _ & Hpr & _).
    destruct (init_cases w) as [[_ ->]|[_ ->]]; cbn [snd].
    + destruct Hs as [Hs1 Hs2]. split; [now rewrite Ho|]. unfold disk_pivot_ok.
      rewrite Hd. exact Hs2.
    + apply load_pivot; cbn [with_obj provider disk];
        [rewrite Hpr; assumption|rewrite Hd; apply Hs].
  - now apply fetch_pivot.
  - unfold update_from_api, bind.
    pose proof (fetch_pivot w Hp Hs) as H.
    destruct (fetch_latest_rates w) as [[[]|e] w']; exact H.
  - unfold save_to_cache. destruct (disk_writable w); [|assumption].
    split; [apply Hs|]. apply (record_pivot (obj w)), Hs.
  - assumption.
Qed.

End Pivot.

(** ** The claims about the rate store *)

Section StoreClaims.


Lemma serving_pivot rates : pivot_ok rates -> provider_pivot_ok (serving rates).
Proof.
  intros H n ep b rates' Hb Hr. destruct ep; injection Hb as <-; cbn in Hr.
  - discriminate.
  - now injection Hr as <-.
Qed.

Lemma at_start_pivot f p now :
  disk_pivot_ok f -> store_pivot_ok (at_start f p now).
Proof.
  intros H. split; [|exact H]. intros r Hr. cbn in Hr.
  rewrite lookup_empty in Hr. discriminate.
Qed.


(** X2.  [load_or_update_rates] never raises: whatever the cache file,
    the clock and the provider do, it returns. *)
Theorem initialize_never_raises w : fst (load_or_update_rates w) = Ok tt.
Proof.
  destruct (cache_cases w) as [H|[H|[H|(c & secs & rates & Hc & Hr & Hage)]]].
  - rewrite (load_absent _ H). apply after_fetch_inv.
  - apply load_unusable, H.
  - rewrite (load_stale _ H). apply after_fetch_inv.
  - now rewrite (load_fresh _ _ _ _ Hc Hr Hage).
Qed.

(** X1.  Without a cache file, or with a timestamp a day old or more, the
    load sends a request; when the fetch (run in the world [w0] the load has
    reached) returns [True] the load ends where the fetch ended, and in
    every other case the table is the default one and the timestamp is
    the latest clock reading. *)
Theorem initialize_refetches w :
  disk w = NoFile \/ cache_stale w ->
  let w' := snd (load_or_update_rates w) in
  let w0 := match disk w with NoFile => w | _ => tick w end in
  (requests w < requests w')%nat /\
  (fst (fetch_latest_rates w0) = Ok true -> w' = snd (fetch_latest_rates w0)) /\
  (fst (fetch_latest_rates w0) <> Ok true ->
   exchange_rates (obj w') = default_rates /\
   last_update (obj w') = Some (strftime (clock w (pred (ticks w'))))).
Proof.
  intros H. cbv zeta.
  assert (E : load_or_update_rates w
              = after_fetch (fetch_latest_rates
                               match disk w with NoFile => w | _ => tick w end)).
  { destruct H as [H|H].
    - rewrite (load_absent _ H), H. reflexivity.
    - rewrite (load_stale _ H). destruct H as (c & secs & [-> _] & _).
      reflexivity. }
  rewrite E. clear E.
  set (w0 := match disk w with NoFile => w | _ => tick w end).
  assert (Hreq : requests w0 = requests w) by (unfold w0; now destruct (disk w)).
  assert (Hclk : clock w0 = clock w) by (unfold w0; now destruct (disk w)).
  destruct (after_fetch_inv w0) as (_ & _ & Hlt & Hcase). cbv zeta in Hcase.
  rewrite Hreq in Hlt. split; [exact Hlt|].
  destruct Hcase as [[Ht Hw]|(Hn & Hobj & _ & Htk)].
  - split; [now intros _|]. intros Hne. now destruct Hne.
  - split; [intros Ht; now destruct Hn|]. intros _.
    rewrite Hobj, Htk, Hclk. split; reflexivity.
Qed.

Lemma initialize_refetches_witness :
  let w := at_start (cached todays_rates 1700000000) offline
             (1700000000 * us_per_second + hours 25) in
  (requests w < requests (snd (load_or_update_rates w)))%nat /\
  exchange_rates (obj (snd (load_or_update_rates w))) = default_rates.
Proof.
  cbv zeta.
  pose proof (initialize_refetches
                (at_start (cached todays_rates 1700000000) offline
                   (1700000000 * us_per_second + hours 25))) as H.
  cbv zeta in H. destruct H as (H1 & _ & H3).
  - right. exists {| cj_rates := Some todays_rates;
                     cj_last_update := Some (Some (Stamp 1700000000)) |}, 1700000000.
    split; [split; reflexivity|]. vm_compute. discriminate.
  - split; [exact H1|]. apply H3. vm_compute. discriminate.
Defined.

(** A cache file that exists and cannot be used sends the load to its
    handler: the default table is installed under the latest clock
    reading, the file is left as it is, and no request is sent. *)
Theorem initialize_defaults_on_unusable_cache w :
  cache_unusable w ->
  let w' := snd (load_or_update_rates w) in
  requests w' = requests w /\
  exchange_rates (obj w') = default_rates /\
  last_update (obj w') = Some (strftime (clock w (pred (ticks w')))) /\
  disk w' = disk w.
Proof.
  intros H. destruct (load_unusable _ H) as (_ & Hreq & Hobj & _ & Hd & _).
  cbv zeta. rewrite Hobj at 1 2. auto.
Qed.

Lemma initialize_defaults_on_unusable_cache_witness :
  let w := at_start JsonNotObject (serving todays_rates) 0 in
  requests (snd (load_or_update_rates w)) = 0%nat /\
  exchange_rates (obj (snd (load_or_update_rates w))) = default_rates.
Proof.
  cbv zeta.
  pose proof (initialize_defaults_on_unusable_cache
                (at_start JsonNotObject (serving todays_rates) 0)) as H.
  cbv zeta in H. destruct H as (H1 & H2 & _).
  - right; right; left. reflexivity.
  - split; assumption.
Defined.

(** X3.  [__init__] raises exactly when the variable is missing or empty
    once [load_dotenv] has run, and returns otherwise: an entry of the
    .env file serves when the environment lacks the variable, and a value
    of the environment, an empty one too, is not replaced by the file.  In
    both cases [self.API_KEY] and the environment hold that value at the
    end.  When it raises, that is all that happened: the three other
    attributes and the cache file are as before, no request was sent, the
    clock was not read, nothing was printed; and [main] shows the error
    and ends without reading a line. *)
Theorem init_requires_credential w :
  let w' := snd (__init__ w) in
  let missing := ValueError "API Key tidak ditemukan" in
  (fst (__init__ w) = Raise missing <->
   credential w = None \/ credential w = Some EmptyString) /\
  (fst (__init__ w) = Ok tt <-> exists c key, credential w = Some (String c key)) /\
  API_KEY w' = credential w /\ getenv_API_KEY w' = credential w /\
  (fst (__init__ w) = Raise missing ->
   obj w' = obj w /\ disk w' = disk w /\ requests w' = requests w /\
   ticks w' = ticks w /\ console w' = console w /\
   forall inputs,
     main inputs w
     = Some {| stdin := inputs; store := w'; screen := [Fatal (Some missing)] |}).
Proof.
  cbv zeta.
  assert (Hfalsy : falsy (credential w) = true <->
            credential w = None \/ credential w = Some EmptyString).
  { destruct (credential w) as [[|c key]|]; cbn; intuition discriminate. }
  assert (Htruthy : falsy (credential w) = false <->
            exists c key, credential w = Some (String c key)).
  { destruct (credential w) as [[|c key]|]; cbn;
      (split; [intros H; try discriminate H; eauto
              |intros (? & ? & H); try discriminate H; reflexivity]). }
  assert (Hkey : API_KEY (keyed w) = credential w /\
                 getenv_API_KEY (keyed w) = credential w).
  { unfold keyed, credential, load_dotenv.
    destruct (getenv_API_KEY w) eqn:Hg, (dotenv_API_KEY w) eqn:Hd; cbn;
      rewrite ?Hg, ?Hd; auto. }
  destruct Hkey as [Hk Hg].
  destruct (keyed_frame w) as (Ho & Hd & _ & Ht & _ & Hr & _ & Hc).
  pose proof (load_returns (with_obj blank (keyed w))) as Hok.
  pose proof (load_API_KEY (with_obj blank (keyed w))) as Hk'.
  destruct (load_env (with_obj blank (keyed w))) as (_ & _ & Hg' & _).
  cbn [with_obj API_KEY getenv_API_KEY] in Hk', Hg'.
  destruct (init_cases w) as [[Hf E]|[Hf E]]; rewrite E; cbn [fst snd].
  - split; [|split; [|split; [|split]]]; try assumption.
    + split; [intros _; now apply Hfalsy|reflexivity].
    + split; [discriminate|]. intros H%Htruthy. congruence.
    + intros _. repeat split; try assumption.
      intros inputs. unfold main, main_with, call. cbn [store]. rewrite E.
      rewrite Hc, skipn_all. reflexivity.
  - rewrite Hok, Hk', Hg'.
    split; [|split; [|split; [|split]]]; try assumption.
    + split; [discriminate|]. intros H%Hfalsy. congruence.
    + split; [intros _; now apply Htruthy|reflexivity].
    + discriminate.
Qed.

(** The credential by its two sources: none; the .env file alone; an
    empty value in the environment, which the file does not replace; a
    value in the environment, which wins over the file. *)
Example init_credential_samples :
  fst (__init__ (unkeyed None None))
  = Raise (ValueError "API Key tidak ditemukan") /\
  fst (__init__ (unkeyed None (Some "k1"))) = Ok tt /\
  API_KEY (snd (__init__ (unkeyed None (Some "k1")))) = Some "k1" /\
  fst (__init__ (unkeyed (Some EmptyString) (Some "k1")))
  = Raise (ValueError "API Key tidak ditemukan") /\
  API_KEY (snd (__init__ (unkeyed (Some "k2") (Some "k1")))) = Some "k2".
Proof. vm_compute. repeat split. Qed.

(** C3.  A cache file whose timestamp is less than 24 hours old when the
    clock is read is adopted: no request is sent, the rate table is the
    cached one, the timestamp is the cached one, the file stays as it
    is.  The code's test is on the whole-day count of the age, which is 0
    for an age between 0 and 24 hours: 0 at 23 hours, 1 at 25 hours. *)
Theorem initialize_adopts_fresh_cache w c secs rates :
  cache_stamped w c secs -> cj_rates c = Some rates ->
  cache_age w secs < us_per_day ->
  let w' := snd (load_or_update_rates w) in
  fst (load_or_update_rates w) = Ok tt /\
  requests w' = requests w /\
  exchange_rates (obj w') = rates /\
  last_update (obj w') = Some (Stamp secs) /\
  disk w' = disk w /\
  timedelta_days (cache_age w secs) < 1 /\
  (0 <= cache_age w secs -> timedelta_days (cache_age w secs) = 0) /\
  timedelta_days (hours 23) = 0 /\ timedelta_days (hours 25) = 1.
Proof.
  intros Hc Hr Hage. cbv zeta. rewrite (load_fresh _ _ _ _ Hc Hr Hage).
  repeat split.
  - now apply Z.ltb_lt, timedelta_days_lt_1.
  - intros H0. now apply timedelta_days_zero.
Qed.

Lemma initialize_adopts_fresh_cache_witness :
  let w := at_start (cached todays_rates 1700000000) (serving default_rates)
             (1700000000 * us_per_second + hours 23) in
  requests (snd (load_or_update_rates w)) = 0%nat /\
  exchange_rates (obj (snd (load_or_update_rates w))) = todays_rates.
Proof.
  cbv zeta.
  pose proof (initialize_adopts_fresh_cache
                (at_start (cached todays_rates 1700000000) (serving default_rates)
                   (1700000000 * us_per_second + hours 23))
                _ 1700000000 todays_rates
                (conj eq_refl eq_refl) eq_refl ltac:(vm_compute; reflexivity)) as H.
  cbv zeta in H. destruct H as (_ & H1 & H2 & _). split; assumption.
Defined.

(** C4 at its failing input.  A cache file that is not valid JSON, a
    provider in good health: the load ends with the default table and
    without a single request, although the fetch would have succeeded,
    as it does when the file is absent. *)
Lemma malformed_cache_never_fetches :
  let w := at_start Malformed (serving todays_rates) 0 in
  let w' := snd (load_or_update_rates w) in
  requests w' = 0%nat /\
  exchange_rates (obj w') = default_rates /\
  fst (fetch_latest_rates w) = Ok true /\
  let v := at_start NoFile (serving todays_rates) 0 in
  requests (snd (load_or_update_rates v)) = 2%nat /\
  exchange_rates (obj (snd (load_or_update_rates v))) = todays_rates.
Proof. vm_compute. repeat split. Qed.

(** C5 fails as stated: a provider that answers the first request with an
    error body (no "supported_codes") makes [fetch_latest_rates], and
    [update_from_api] with it, raise a [KeyError]; and when the provider
    reports success but the cache file cannot be written, the method
    raises [OSError] after it has replaced the table. *)
Lemma fetch_counterexample :
  fst (fetch_latest_rates (at_start NoFile refusing 0))
  = Raise (KeyError "supported_codes") /\
  fst (update_from_api (at_start NoFile refusing 0))
  = Raise (KeyError "supported_codes") /\
  let w := {| obj := holding default_rates; disk := NoFile;
              disk_writable := false; getenv_API_KEY := Some "key";
              dotenv_API_KEY := None; API_KEY := Some "key";
              ticks := 0; clock := steady_clock 0;
              requests := 0; provider := serving todays_rates;
              console := [] |} in
  fst (fetch_latest_rates w) = Raise OSError /\
  exchange_rates (obj (snd (fetch_latest_rates w))) = todays_rates /\
  disk (snd (fetch_latest_rates w)) = NoFile.
Proof. vm_compute. repeat split. Qed.

(** C5, amended.  [fetch_latest_rates] never lets a [RequestException]
    out: a request that fails makes it print the error and return [False].  When the bodies
    that arrive carry the keys the code subscripts and the cache file is
    writable, it returns a boolean, [True] exactly when the provider
    reported success.  On [True] the table is the provider's, the
    timestamp is the clock reading, and both are in the cache file.  On
    [False], also under [update_from_api], the table, the timestamp and
    the cache file are as before. *)
Theorem fetch_latest_rates_contract w :
  let r := fst (fetch_latest_rates w) in
  let w' := snd (fetch_latest_rates w) in
  r <> Raise RequestException /\
  (provider w (requests w) Codes = HttpFailure ->
   r = Ok false /\ last (console w') = Some (FetchError RequestException)) /\
  (forall b1 codes,
     provider w (requests w) Codes = HttpBody b1 ->
     supported_codes b1 = Some codes ->
     provider w (S (requests w)) LatestUSD = HttpFailure ->
     r = Ok false /\ last (console w') = Some (FetchError RequestException)) /\
  (bodies_complete w -> disk_writable w = true ->
   exists b, r = Ok b /\
     (b = true <-> exists codes rates, reports_success w codes rates)) /\
  (r = Ok true ->
   exists codes rates,
     reports_success w codes rates /\
     obj w' = fetched codes rates (clock w (ticks w)) /\
     disk w' = record_of (obj w')) /\
  (r = Ok false -> same_store w w') /\
  (r = Ok false ->
   same_store w (snd (update_from_api w)) /\
   last (console (snd (update_from_api w))) = Some (Text msg_kept)).
Proof.
  cbv zeta. pose proof (fetch_latest_rates_inv w) as H. cbv zeta in H.
  split; [|split; [|split; [|split; [|split; [|split]]]]].
  - destruct (fetch_latest_rates w) as [[[]|e] w']; cbn [fst snd] in *;
      try discriminate.
    destruct H as (_ & _ & _ & [((k & ->) & _)|(-> & _)]); discriminate.
  - apply fetch_first_request_fails.
  - apply fetch_second_request_fails.
  - apply fetch_returns_bool.
  - destruct (fetch_latest_rates w) as [r w']; cbn [fst snd] in *.
    intros ->. destruct H as (_ & _ & codes & rates & Hs & _ & Ho & Hd & _).
    eauto 10.
  - destruct (fetch_latest_rates w) as [r w']; cbn [fst snd] in *.
    intros ->. apply H.
  - unfold update_from_api, bind, print.
    destruct (fetch_latest_rates w) as [[[]|e] w']; cbn [fst snd] in *;
      try discriminate.
    intros _. split; [apply H|]. cbn. apply last_snoc.
Qed.

(** C8.  After [save_to_cache] has written the table and a well-formed
    timestamp, a load on a fresh object, at a clock reading less than 24
    hours past that timestamp, ends with the same table and timestamp and
    sends no request. *)
Theorem persist_then_initialize w secs :
  last_update (obj w) = Some (Stamp secs) ->
  disk_writable w = true ->
  let w1 := snd (save_to_cache w) in
  cache_age w1 secs < us_per_day ->
  let w2 := snd (load_or_update_rates (with_obj blank w1)) in
  fst (save_to_cache w) = Ok tt /\
  fst (load_or_update_rates (with_obj blank w1)) = Ok tt /\
  exchange_rates (obj w2) = exchange_rates (obj w) /\
  last_update (obj w2) = last_update (obj w) /\
  requests w2 = requests w.
Proof.
  intros Hs Hw. unfold save_to_cache. rewrite Hw. cbn [fst snd].
  intros Hage.
  erewrite load_fresh; [| split; cbn; [reflexivity|now rewrite Hs]
                        | reflexivity | exact Hage].
  cbn. now rewrite Hs.
Qed.

Lemma persist_then_initialize_witness :
  let w := with_obj (fetched [] todays_rates 5000000) (at_start NoFile offline 5000000) in
  exchange_rates
    (obj (snd (load_or_update_rates (with_obj blank (snd (save_to_cache w))))))
  = todays_rates.
Proof.
  cbv zeta.
  pose proof (persist_then_initialize
                (with_obj (fetched [] todays_rates 5000000)
                   (at_start NoFile offline 5000000))
                5 eq_refl eq_refl ltac:(vm_compute; reflexivity)) as H.
  cbv zeta in H. destruct H as (_ & _ & H & _). exact H.
Defined.

(** C9 fails as stated: the code stores whatever table the provider or
    the cache file supplies.  A provider that sends USD at 2.0, or a
    recent cache file that holds it, puts the store in a state whose
    pivot entry is 2.0. *)
Lemma pivot_counterexample :
  exchange_rates
    (obj (run_all [OpInitialize] (at_start NoFile (serving skewed_rates) 0)))
    !! "USD" = Some 2%float /\
  exchange_rates
    (obj (run_all [OpInitialize]
            (at_start (cached skewed_rates 0) offline (hours 1))))
    !! "USD" = Some 2%float /\
  (2 =? 1)%float = false /\
  ~ pivot_ok (exchange_rates
                (obj (run_all [OpInitialize]
                        (at_start NoFile (serving skewed_rates) 0)))).
Proof.
  repeat split; try (vm_compute; reflexivity).
  intros H.
  assert (E : exchange_rates
                (obj (run_all [OpInitialize]
                        (at_start NoFile (serving skewed_rates) 0)))
                !! "USD" = Some 2%float) by (vm_compute; reflexivity).
  apply H in E. apply (f_equal Prim2SF) in E. vm_compute in E. discriminate.
Qed.

(** C9, amended.  If every table the provider sends has its pivot entry,
    when present, at 1.0, and so have the table held at the start and the
    table of the cache file at the start, then so has the table held
    after any sequence of the operations. *)
Theorem pivot_invariant w0 ops :
  provider_pivot_ok (provider w0) ->
  store_pivot_ok w0 ->
  pivot_ok (exchange_rates (obj (run_all ops w0))).
Proof.
  intros Hp Hs.
  enough (H : store_pivot_ok (run_all ops w0)) by apply H.
  revert w0 Hp Hs. induction ops as [|o ops IH]; intros w Hp Hs.
  - exact Hs.
  - cbn [run_all fold_left]. apply IH.
    + destruct (run_env o w) as (_ & Hprov & _). now rewrite Hprov.
    + now apply run_pivot.
Qed.

Lemma pivot_invariant_witness :
  exchange_rates
    (obj (run_all [OpInitialize; OpConvert 10 "usd" "eur"; OpRefresh; OpPersist]
            (at_start NoFile (serving todays_rates) 0)))
    !! "USD" = Some 1%float /\
  pivot_ok
    (exchange_rates
       (obj (run_all [OpInitialize; OpConvert 10 "usd" "eur"; OpRefresh; OpPersist]
               (at_start NoFile (serving todays_rates) 0)))).
Proof.
  split; [vm_compute; reflexivity|].
  apply (pivot_invariant (at_start NoFile (serving todays_rates) 0)).
  - apply serving_pivot. intros r H.
    assert (E : todays_rates !! "USD" = Some 1%float) by reflexivity.
    rewrite E in H. congruence.
  - apply at_start_pivot. intros c rates H. discriminate.
Defined.

End StoreClaims.

(** ** More on [fetch_latest_rates] and the cache *)

Section FetchMore.

(** The ways through [fetch_latest_rates], by the answers of the provider. *)
Ltac fetch_walk w :=
  unfold fetch_latest_rates, try_except, bind, requests_get, getitem,
    set_supported_currencies, set_exchange_rates, set_last_update,
    datetime_now, save_to_cache, print, raise, ret;
  cbn;
  destruct (provider w (requests w) Codes) as [|first] eqn:E1; cbn;
  [|destruct (supported_codes first) as [listed|] eqn:Ec; cbn;
    [destruct (provider w (S (requests w)) LatestUSD) as [|second] eqn:E2; cbn;
     [|destruct (result_field second) as [status|] eqn:Es; cbn;
       [destruct (String.eqb status "success") eqn:Eq; cbn;
        [apply String.eqb_eq in Eq; subst status;
         destruct (conversion_rates second) as [sent_rates|] eqn:Er; cbn;
         [destruct (disk_writable w) eqn:Ew; cbn|]
        |apply String.eqb_neq in Eq]
       |]]
    |]].

(** X5.  A fetch sends one request or two: the rates are asked for only
    after the codes request was answered with a list of codes; and the
    clock is read only after the provider reported success. *)
Theorem fetch_request_budget w :
  let w' := snd (fetch_latest_rates w) in
  (requests w' = S (requests w) \/ requests w' = S (S (requests w))) /\
  (requests w' = S (requests w) <->
   provider w (requests w) Codes = HttpFailure \/
   exists b, provider w (requests w) Codes = HttpBody b /\
             supported_codes b = None) /\
  (ticks w' = ticks w \/
   ticks w' = S (ticks w) /\ exists codes rates, reports_success w codes rates).
Proof.
  cbv zeta. unfold reports_success. fetch_walk w.
  all: split; [auto|split; [|eauto 12]].
  all: split; [intros H; try lia; eauto|].
  all: intros [H|(b & H & Hn)]; congruence.
Qed.

(** X6.  Once the codes request is answered with a list, that list
    replaces [supported_currencies], however the rest of the fetch goes;
    when the request fails or the answer has no list, the object is left
    as it was. *)
Theorem fetch_partial_update w :
  let w' := snd (fetch_latest_rates w) in
  (forall b codes,
     provider w (requests w) Codes = HttpBody b ->
     supported_codes b = Some codes ->
     supported_currencies (obj w') = codes) /\
  (provider w (requests w) Codes = HttpFailure \/
   (exists b, provider w (requests w) Codes = HttpBody b /\
              supported_codes b = None) ->
   obj w' = obj w).
Proof.
  cbv zeta. fetch_walk w.
  all: split; [intros b codes Hb Hc; try congruence|].
  all: try (intros [H|(b & H & Hn)]; try congruence; reflexivity).
  all: try (injection Hb as <-; rewrite Ec in Hc; now injection Hc as <-).
  all: intros [H|(b & H & Hn)]; [discriminate|].
  all: injection H as <-; congruence.
Qed.

(** X7.  After a fetch that returned [True], a load on a fresh object, at
    a clock reading less than 24 hours past the fetch, ends with the
    fetched table and timestamp and sends no request. *)
Theorem fetch_then_restart w :
  fst (fetch_latest_rates w) = Ok true ->
  let w1 := snd (fetch_latest_rates w) in
  cache_age w1 (clock w (ticks w) / us_per_second) < us_per_day ->
  let w2 := snd (load_or_update_rates (with_obj blank w1)) in
  exchange_rates (obj w2) = exchange_rates (obj w1) /\
  last_update (obj w2) = last_update (obj w1) /\
  requests w2 = requests w1.
Proof.
  intros Ht. cbv zeta.
  pose proof (fetch_latest_rates_inv w) as H. cbv zeta in H.
  destruct (fetch_latest_rates w) as [r w1]. cbn [fst snd] in *. subst r.
  destruct H as (_ & _ & codes & rates & _ & _ & Hobj & Hdisk & _).
  intros Hage.
  erewrite load_fresh; [| split; cbn; [rewrite Hdisk; reflexivity|];
                          rewrite Hobj; reflexivity
                        | rewrite Hobj; reflexivity | exact Hage].
  cbn. rewrite Hobj. auto.
Qed.

Lemma fetch_then_restart_witness :
  let w := at_start NoFile (serving todays_rates) 0 in
  exchange_rates
    (obj (snd (load_or_update_rates
                 (with_obj blank (snd (fetch_latest_rates w))))))
  = todays_rates.
Proof.
  cbv zeta.
  pose proof (fetch_then_restart (at_start NoFile (serving todays_rates) 0)
                eq_refl ltac:(vm_compute; reflexivity)) as H.
  cbv zeta in H. destruct H as (H & _). rewrite H. reflexivity.
Defined.

(** What a fetch prints: nothing when it returns [True]; and a fetch that
    does not return [True] leaves the cache file as it was. *)
Lemma fetch_console w :
  let w' := snd (fetch_latest_rates w) in
  (fst (fetch_latest_rates w) = Ok true ->
   console w' = console w /\ disk w' = record_of (obj w')) /\
  (fst (fetch_latest_rates w) <> Ok true ->
   disk w' = disk w /\ exists pre, console w' = console w ++ pre).
Proof.
  cbv zeta. fetch_walk w.
  all: split; [intros H; try discriminate H; auto|intros H; try congruence].
  all: split; [reflexivity|].
  all: first [now exists [] ; rewrite app_nil_r | eexists; reflexivity].
Qed.

(** The handler of the load prints its two lines, installs the default
    table and leaves the cache file alone. *)
Lemma load_handler_effect e w :
  let w' := snd (load_handler e w) in
  console w' = console w ++ [LoadError e; Text "Menggunakan data kurs default..."] /\
  exchange_rates (obj w') = default_rates /\ disk w' = disk w.
Proof. cbv zeta. cbn. rewrite <- app_assoc. auto. Qed.

Lemma after_fetch_cache_write w w0 :
  disk w0 = disk w -> console w0 = console w ->
  let w' := snd (after_fetch (fetch_latest_rates w0)) in
  fetch_latest_rates w0 = (Ok true, w') /\
  disk w' = record_of (obj w') /\ console w' = console w
  \/
  exists pre e,
    console w'
    = console w ++ pre ++ [LoadError e; Text "Menggunakan data kurs default..."] /\
    exchange_rates (obj w') = default_rates /\ disk w' = disk w.
Proof.
  intros Hd Hc. cbv zeta.
  pose proof (fetch_console w0) as H. cbv zeta in H. unfold after_fetch.
  destruct (fetch_latest_rates w0) as [r w1]. cbn [fst snd] in H.
  destruct H as [Hyes Hno].
  assert (Hh : forall e, r <> Ok true ->
            let w' := snd (load_handler e w1) in
            exists pre e',
              console w'
              = console w ++ pre
                ++ [LoadError e'; Text "Menggunakan data kurs default..."] /\
              exchange_rates (obj w') = default_rates /\ disk w' = disk w).
  { intros e Hr. cbv zeta. destruct (Hno Hr) as (Hd1 & pre & Hc1).
    destruct (load_handler_effect e w1) as (Hc2 & Ho2 & Hd2).
    exists pre, e. rewrite Hc2, Hc1, Hc, Hd2, Hd1, Hd, <- app_assoc. auto. }
  destruct r as [[]|e].
  - left. destruct (Hyes eq_refl) as [Hc1 Hd1]. cbn [snd].
    rewrite Hc1, Hc. auto.
  - right. apply Hh. discriminate.
  - right. apply Hh. discriminate.
Qed.

(** An unusable cache: the handler runs at once. *)
Lemma load_unusable_console w :
  cache_unusable w ->
  let w' := snd (load_or_update_rates w) in
  exists e,
    console w'
    = console w ++ [LoadError e; Text "Menggunakan data kurs default..."] /\
    exchange_rates (obj w') = default_rates /\ disk w' = disk w.
Proof.
  unfold cache_unusable, object_unusable, cache_age.
  unfold load_or_update_rates, try_except, bind, os_path_exists,
    load_from_cache, bind, json_load.
  intros [H|[H|[H|(c & H & Hc)]]]; repeat (progress (rewrite ?H; cbn)).
  1-3: eexists; rewrite <- app_assoc; repeat split; try rewrite H; auto.
  destruct Hc as [Hc|[Hc|[(text & Hc)|(secs & Hc & Hage & Hr)]]];
    repeat (progress (rewrite ?Hc; cbn)).
  1-3: eexists; rewrite <- app_assoc; repeat split; try rewrite H; auto.
  apply timedelta_days_lt_1 in Hage.
  repeat (progress (rewrite ?Hage, ?Hr; cbn)).
  eexists; rewrite <- app_assoc; repeat split; try rewrite H; auto.
Qed.

(** X8.  A load ends in one of three ways.  It adopts a recent cache:
    nothing is printed and the file stays.  Or its fetch, made because
    the file is absent or stale, returns [True]: nothing is printed and
    the file is the record of the table and timestamp now held.  Or its
    handler runs: the two lines of the fallback are the last printed, the
    table is the default one and the file is left as it was.  So the
    cache file is rewritten only through a fetch that returned [True],
    and the defaults are never written to it. *)
Theorem initialize_cache_write w :
  let w' := snd (load_or_update_rates w) in
  ((exists c secs rates,
      cache_stamped w c secs /\ cj_rates c = Some rates /\
      cache_age w secs < us_per_day /\
      exchange_rates (obj w') = rates) /\
   console w' = console w /\ disk w' = disk w)
  \/
  (exists w0,
     (disk w = NoFile /\ w0 = w \/ cache_stale w /\ w0 = tick w) /\
     fetch_latest_rates w0 = (Ok true, w') /\
     disk w' = record_of (obj w') /\ console w' = console w)
  \/
  (exists pre e,
     console w'
     = console w ++ pre ++ [LoadError e; Text "Menggunakan data kurs default..."] /\
     exchange_rates (obj w') = default_rates /\ disk w' = disk w).
Proof.
  cbv zeta.
  destruct (cache_cases w) as [H|[H|[H|(c & secs & rates & Hc & Hr & Hage)]]].
  - rewrite (load_absent _ H).
    destruct (after_fetch_cache_write w w eq_refl eq_refl) as [(Hf & Hk)|Hk];
      [right; left; exists w; auto|right; right; exact Hk].
  - right; right. destruct (load_unusable_console w H) as (e & Hk).
    exists [], e. exact Hk.
  - rewrite (load_stale _ H).
    destruct (after_fetch_cache_write w (tick w) eq_refl eq_refl) as [(Hf & Hk)|Hk];
      [right; left; exists (tick w); auto|right; right; exact Hk].
  - left. rewrite (load_fresh _ _ _ _ Hc Hr Hage). cbn. eauto 10.
Qed.

End FetchMore.

(** ** Any invariant of the tables *)

Section TableInvariant.

Variable P : gmap string float -> Prop.
Hypothesis P_default : P default_rates.

Lemma reports_success_holds w codes rates :
  provider_sends P (provider w) -> reports_success w codes rates -> P rates.
Proof. intros Hp (b1 & b2 & _ & _ & E2 & _ & Er). exact (Hp _ _ _ _ E2 Er). Qed.

Lemma fetch_holds w :
  provider_sends P (provider w) -> store_holds P w ->
  store_holds P (snd (fetch_latest_rates w)).
Proof.
  intros Hp [Ho Hd]. pose proof (fetch_latest_rates_inv w) as H. cbv zeta in H.
  destruct (fetch_latest_rates w) as [r w']. cbn [fst snd] in *.
  destruct H as (_ & _ & H). unfold store_holds.
  destruct r as [[]|e].
  - destruct H as (codes & rates & Hs & _ & Hobj & Hdisk & _).
    assert (Hr : P (exchange_rates (obj w')))
      by (rewrite Hobj; exact (reports_success_holds _ _ _ Hp Hs)).
    split; [assumption|]. rewrite Hdisk. now intros c t [= <-] [= <-].
  - destruct H as ((Hr & _ & Hk) & _). now rewrite Hr, Hk.
  - destruct H as (Hk & [(_ & (Hr & _) & _)|(_ & _ & _ & codes & rates & Hs & Hobj)]).
    + now rewrite Hr, Hk.
    + rewrite Hk, Hobj. split; [|assumption].
      exact (reports_success_holds _ _ _ Hp Hs).
Qed.

Lemma after_fetch_holds w0 :
  provider_sends P (provider w0) ->
  (forall c rates, disk w0 = JsonObject c -> cj_rates c = Some rates -> P rates) ->
  store_holds P (snd (after_fetch (fetch_latest_rates w0))).
Proof.
  intros Hp Hd.
  pose proof (fetch_latest_rates_inv w0) as H. cbv zeta in H.
  unfold after_fetch.
  destruct (fetch_latest_rates w0) as [r w1]. cbn [fst snd] in *.
  destruct H as (_ & _ & H). unfold store_holds.
  destruct r as [[]|e]; cbn.
  - destruct H as (codes & rates & Hs & _ & Hobj & Hdisk & _).
    assert (Hr : P (exchange_rates (obj w1)))
      by (rewrite Hobj; exact (reports_success_holds _ _ _ Hp Hs)).
    split; [assumption|]. rewrite Hdisk. now intros c t [= <-] [= <-].
  - destruct H as ((_ & _ & Hk) & _). rewrite Hk. now split.
  - destruct H as (Hk & _). rewrite Hk. now split.
Qed.

Lemma load_holds w :
  provider_sends P (provider w) ->
  (forall c rates, disk w = JsonObject c -> cj_rates c = Some rates -> P rates) ->
  store_holds P (snd (load_or_update_rates w)).
Proof.
  intros Hp Hd.
  destruct (cache_cases w) as [H|[H|[H|(c & secs & rates & Hc & Hr & Hage)]]].
  - rewrite (load_absent _ H). now apply after_fetch_holds.
  - destruct (load_unusable _ H) as (_ & _ & Hobj & _ & Hk & _).
    unfold store_holds. rewrite Hobj, Hk. now split.
  - rewrite (load_stale _ H). now apply after_fetch_holds.
  - rewrite (load_fresh _ _ _ _ Hc Hr Hage). split; cbn; [|assumption].
    destruct Hc as [Hc _]. exact (Hd _ _ Hc Hr).
Qed.

Lemma run_holds o w :
  provider_sends P (provider w) -> store_holds P w -> store_holds P (run o w).
Proof.
  intros Hp Hs. destruct o; cbn [run].
  - destruct (keyed_frame w) as (Ho & Hd & _ & _ & _ & _ & Hpr & _).
    destruct (init_cases w) as [[_ ->]|[_ ->]]; cbn [snd].
    + unfold store_holds. rewrite Ho, Hd. exact Hs.
    + apply load_holds; cbn [with_obj provider disk];
        [rewrite Hpr; assumption|rewrite Hd; apply Hs].
  - now apply fetch_holds.
  - unfold update_from_api, bind, print.
    pose proof (fetch_holds w Hp Hs) as H.
    destruct (fetch_latest_rates w) as [[[]|e] w']; exact H.
  - unfold save_to_cache. destruct (disk_writable w); [|assumption].
    split; [apply Hs|]. cbn. intros c t [= <-] [= <-]. apply Hs.
  - assumption.
Qed.

Lemma run_all_holds ops : forall w0,
  provider_sends P (provider w0) ->
  store_holds P w0 ->
  store_holds P (run_all ops w0) /\ provider (run_all ops w0) = provider w0.
Proof.
  induction ops as [|o ops IH]; intros w Hp Hs; [now split|].
  cbn [run_all fold_left]. fold (run_all ops (run o w)).
  destruct (run_env o w) as (_ & Hprov & _).
  destruct (IH (run o w)) as [H1 H2].
  - now rewrite Hprov.
  - now apply run_holds.
  - split; [assumption|congruence].
Qed.

(** X10.  A property of rate tables that the default table has, that
    every table the provider sends has, and that the table held and the
    cached table have at the start, is had by the table held and by the
    cached table after any sequence of the operations. *)
Theorem table_invariant w0 ops :
  provider_sends P (provider w0) ->
  store_holds P w0 ->
  store_holds P (run_all ops w0).
Proof.
  revert w0. induction ops as [|o ops IH]; intros w Hp Hs; [exact Hs|].
  cbn [run_all fold_left]. apply IH.
  - destruct (run_env o w) as (_ & Hprov & _). now rewrite Hprov.
  - now apply run_holds.
Qed.

End TableInvariant.

Section ConvertMore.

Lemma serving_sends (P : gmap string float -> Prop) rates :
  P rates -> provider_sends P (serving rates).
Proof.
  intros H n ep b rates' Hb Hr. destruct ep; injection Hb as <-; cbn in Hr.
  - discriminate.
  - now injection Hr as <-.
Qed.

Lemma todays_rates_positive : positive_rates todays_rates.
Proof.
  unfold positive_rates, todays_rates. intros k r.
  rewrite lookup_insert. case_decide; [intros [= <-]; reflexivity|].
  rewrite lookup_singleton. case_decide; [intros [= <-]; reflexivity|discriminate].
Qed.

Lemma table_invariant_witness :
  store_holds positive_rates
    (run_all [OpInitialize; OpRefresh; OpPersist]
       (at_start NoFile (serving todays_rates) 0)).
Proof.
  apply (table_invariant positive_rates default_rates_positive
           (at_start NoFile (serving todays_rates) 0)
           [OpInitialize; OpRefresh; OpPersist]).
  - apply serving_sends, todays_rates_positive.
  - split.
    + intros k r H. cbn in H. rewrite lookup_empty in H. discriminate.
    + intros c rates H. discriminate.
Defined.

(** X11.  With a provider that sends only strictly positive rates, and
    such rates in the cache file at the start, no sequence of the
    operations leads to a state in which [convert] divides by zero: it
    returns a value whenever both codes are keys and raises nothing but
    the unsupported-currency error. *)
Theorem reachable_convert_safe w0 ops amount f t :
  provider_sends positive_rates (provider w0) ->
  store_holds positive_rates w0 ->
  let self := obj (run_all ops w0) in
  convert self amount f t <> Raise ZeroDivisionError /\
  (is_Some (exchange_rates self !! upper f) ->
   is_Some (exchange_rates self !! upper t) ->
   exists v, convert self amount f t = Ok v).
Proof.
  intros Hp Hs. cbv zeta.
  destruct (run_all_holds positive_rates default_rates_positive ops w0 Hp Hs)
    as [[Hpos _] _].
  set (self := obj (run_all ops w0)) in *. split.
  - unfold convert.
    destruct (exchange_rates self !! upper f) as [rf|] eqn:Hf; [|discriminate].
    destruct (exchange_rates self !! upper t) as [rt|]; [|discriminate].
    rewrite truediv_nonzero by (eapply float_pos_nonzero, Hpos, Hf).
    discriminate.
  - intros [rf Hf] [rt Ht]. eexists.
    apply (convert_value _ _ _ _ _ _ Hf Ht).
    eapply float_pos_nonzero, Hpos, Hf.
Qed.

Lemma reachable_convert_safe_witness :
  exists v,
    convert (obj (run_all [OpInitialize; OpRefresh]
                    (at_start NoFile (serving todays_rates) 0)))
            10 "usd" "eur" = Ok v.
Proof.
  apply (reachable_convert_safe (at_start NoFile (serving todays_rates) 0)
           [OpInitialize; OpRefresh] 10 "usd" "eur").
  - apply serving_sends, todays_rates_positive.
  - split.
    + intros k r H. cbn in H. rewrite lookup_empty in H. discriminate.
    + intros c rates H. discriminate.
  - eexists. vm_compute. reflexivity.
  - eexists. vm_compute. reflexivity.
Defined.

Lemma Prim2SF_nan : Prim2SF nan = S754_nan.
Proof. vm_compute. reflexivity. Qed.

(** X9.  An amount that is not a number converts to not-a-number: with
    both codes in the table and a source rate that is not zero,
    [convert] returns NaN and raises nothing. *)
Theorem convert_nan self f t rf rt :
  exchange_rates self !! upper f = Some rf ->
  exchange_rates self !! upper t = Some rt ->
  (rf =? 0)%float = false ->
  convert self nan f t = Ok nan.
Proof.
  intros Hf Ht Hz. rewrite (convert_value _ _ _ _ _ _ Hf Ht Hz).
  assert (Hd : (nan / rf)%float = nan).
  { apply Prim2SF_inj. now rewrite div_spec, Prim2SF_nan. }
  assert (Hm : (nan * rt)%float = nan).
  { apply Prim2SF_inj. now rewrite mul_spec, Prim2SF_nan. }
  rewrite Hd, Hm. unfold py_round. now rewrite Prim2SF_nan.
Qed.

Lemma convert_nan_witness :
  convert (holding default_rates) nan "eur" "jpy" = Ok nan.
Proof.
  apply (convert_nan (holding default_rates) "eur" "jpy" 0.93 150.27);
    vm_compute; reflexivity.
Defined.

End ConvertMore.

(** ** [display_rates] *)

Section Display.

Lemma display_loop_lines self cs :
  display_loop self cs
  = omap (fun c => (fun r => rate_line r c) <$> exchange_rates self !! c) cs.
Proof.
  induction cs as [|c cs IH]; [reflexivity|]. cbn.
  destruct (exchange_rates self !! c); cbn; now rewrite IH.
Qed.

Lemma display_loop_length self cs :
  length (display_loop self cs)
  = length (filter (fun c => is_Some (exchange_rates self !! c)) cs).
Proof.
  induction cs as [|c cs IH]; [reflexivity|]. cbn [display_loop].
  rewrite filter_cons. destruct (exchange_rates self !! c) as [r|] eqn:E.
  - rewrite decide_True by eauto. cbn. now rewrite IH.
  - rewrite decide_False by (intros [? ?]; discriminate). exact IH.
Qed.

Lemma display_loop_agree self self' cs :
  (forall c, c ∈ cs -> exchange_rates self' !! c = exchange_rates self !! c) ->
  display_loop self' cs = display_loop self cs.
Proof.
  induction cs as [|c cs IH]; intros H; [reflexivity|]. cbn.
  rewrite (H c) by left. rewrite IH; [reflexivity|].
  intros c' Hc'. apply H. now right.
Qed.

(** X12.  [display_rates] prints four fixed lines and one line for each
    of the ten main currencies that is a key of the table, in the order of
    the list, with the rate now held; what the table holds for any other
    code, USD among them, has no effect on what is printed. *)
Theorem display_rates_main_currencies self :
  length (display_rates self) = (4 + length (listed self))%nat /\
  (forall c r, c ∈ main_currencies -> exchange_rates self !! c = Some r ->
     rate_line r c ∈ display_rates self) /\
  (forall self',
     last_update self' = last_update self ->
     (forall c, c ∈ main_currencies ->
        exchange_rates self' !! c = exchange_rates self !! c) ->
     display_rates self' = display_rates self).
Proof.
  split; [|split].
  - unfold display_rates, listed.
    rewrite !length_app, display_loop_length. cbn. lia.
  - intros c r Hc Hr. unfold display_rates.
    apply elem_of_app. right. apply elem_of_app. left.
    rewrite display_loop_lines. apply list_elem_of_omap.
    exists c. split; [assumption|]. now rewrite Hr.
  - intros self' Hu Hl. unfold display_rates.
    now rewrite Hu, (display_loop_agree self self' _ Hl).
Qed.

(** The lines for the default table, as Python prints them. *)
Example display_rates_default :
  display_loop (holding default_rates) main_currencies
  = [Said "1 USD = 0.9300 EUR"; Said "1 USD = 15,600.0000 IDR";
     Said "1 USD = 1.3500 SGD"; Said "1 USD = 4.7300 MYR";
     Said "1 USD = 150.2700 JPY"].
Proof. vm_compute. reflexivity. Qed.

(** The texts CPython gives for these formats. *)
Example format_comma_f_samples :
  format_comma_f 2 1234567.891 = "1,234,567.89" /\
  format_comma_f 4 999.99995 = "1,000.0000" /\
  format_comma_f 2 0.125 = "0.12" /\
  format_comma_f 2 (-0.001) = "-0.00" /\
  format_comma_f 4 infinity = "inf" /\
  format_comma_f 2 nan = "nan".
Proof. vm_compute. repeat split. Qed.

End Display.

(** ** The menu session of [main] *)

Section Session.

(** Every way through the dialogue of choice 1. *)
Ltac dialog_paths s :=
  unfold convert_dialog, input, show; cbn;
  destruct (stdin s) as [|amount_line [|from_line [|to_line rest]]] eqn:Hin; cbn;
  [|destruct (float_value amount_line) as [amount|] eqn:Hfl; cbn
   |destruct (float_value amount_line) as [amount|] eqn:Hfl; cbn
   |destruct (float_value amount_line) as [amount|] eqn:Hfl; cbn;
    [destruct (convert (obj (store s)) amount (text from_line) (text to_line))
       as [shown_value|[]] eqn:Hcv; cbn|]].

Lemma convert_dialog_rest s :
  store (convert_dialog s) = store s /\
  exists k, (k <= 3)%nat /\ stdin (convert_dialog s) = drop k (stdin s).
Proof.
  dialog_paths s.
  all: split; [reflexivity|].
  all: first [exists 0%nat; split; [lia|reflexivity]
             |exists 1%nat; split; [lia|reflexivity]
             |exists 2%nat; split; [lia|reflexivity]
             |exists 3%nat; split; [lia|reflexivity]].
Qed.

(** X13.  The dialogue of choice 1 changes nothing in the world of the
    converter, whatever is typed; it reads at most three lines, and exactly
    one, answered with the error of [float()], when the amount is not a
    number. *)
Theorem convert_dialog_frame s :
  store (convert_dialog s) = store s /\
  (exists k, (k <= 3)%nat /\ stdin (convert_dialog s) = drop k (stdin s)) /\
  (forall l rest, stdin s = l :: rest -> float_value l = None ->
     stdin (convert_dialog s) = rest /\
     last (screen (convert_dialog s))
     = Some (ErrorLine (could_not_convert (text l)))).
Proof.
  dialog_paths s.
  all: split; [reflexivity|split].
  all: try (first [exists 0%nat; split; [lia|reflexivity]
                  |exists 1%nat; split; [lia|reflexivity]
                  |exists 2%nat; split; [lia|reflexivity]
                  |exists 3%nat; split; [lia|reflexivity]]).
  all: intros l rest' Heq Hn; try discriminate.
  all: injection Heq as <- <-; try congruence.
  all: split; [reflexivity|apply last_snoc].
Qed.

Lemma convert_dialog_shorter s :
  (length (stdin (convert_dialog s)) <= length (stdin s))%nat.
Proof.
  destruct (convert_dialog_rest s) as (_ & k & _ & ->).
  rewrite length_drop. lia.
Qed.

Lemma convert_dialog_no_refresh s :
  no_refresh (stdin s) -> no_refresh (stdin (convert_dialog s)).
Proof.
  destruct (convert_dialog_rest s) as (_ & k & _ & ->).
  intros H l Hl. apply H. revert Hl. apply subseteq_drop.
Qed.

Lemma call_frame {A} (c : M A) s :
  stdin (snd (call c s)) = stdin s /\
  store (snd (call c s)) = snd (c (store s)) /\
  fst (call c s) = fst (c (store s)).
Proof. unfold call. now destruct (c (store s)). Qed.

(** A turn of the loop when the input is exhausted. *)
Lemma menu_loop_eof fuel s :
  stdin s = [] ->
  menu_loop (S fuel) s
  = Some (show [Fatal None]
            (show [Asked (nl +:+ "Pilih menu (1-4): ")] (show menu s))).
Proof. intros H. cbn [menu_loop]. unfold input. cbn. now rewrite H. Qed.

(** A turn of the loop on the typed choice [l]. *)
Lemma menu_loop_turn fuel s l rest :
  stdin s = l :: rest ->
  menu_loop (S fuel) s
  = let s1 := after_choice s rest in
    if String.eqb (text l) "1" then menu_loop fuel (convert_dialog s1)
    else if String.eqb (text l) "2" then
      menu_loop fuel (show (display_rates (obj (store s1))) s1)
    else if String.eqb (text l) "3" then
      match call update_from_api s1 with
      | (Ok _, s2) => menu_loop fuel s2
      | (Raise e, s2) => Some (show [Fatal (Some e)] s2)
      end
    else if String.eqb (text l) "4" then Some (show [Said msg_goodbye] s1)
    else menu_loop fuel (show [Said msg_invalid_choice] s1).
Proof. intros H. cbn [menu_loop]. unfold input. cbn. now rewrite H. Qed.

Lemma ended_show l s : ended (show [l] s) <-> (l = Said msg_goodbye \/ exists e, l = Fatal e).
Proof.
  unfold ended, show. cbn. rewrite last_snoc. split.
  - intros [[= ->]|(e & [= ->])]; eauto.
  - intros [->|(e & ->)]; eauto.
Qed.

(** With more fuel than lines to read, the loop ends, in the same session
    whatever the fuel. *)
Lemma menu_loop_ends fuel : forall s,
  (length (stdin s) < fuel)%nat ->
  exists s', ended s' /\
    forall fuel', (length (stdin s) < fuel')%nat -> menu_loop fuel' s = Some s'.
Proof.
  induction fuel as [|fuel IH]; intros s Hlen; [lia|].
  destruct (stdin s) as [|l rest] eqn:Hin.
  - eexists. split; [apply ended_show; eauto|].
    intros [|fuel'] Hf; [cbn in Hf; lia|]. now apply menu_loop_eof.
  - cbn [length] in Hlen.
    assert (Hnext : forall s2, (length (stdin s2) <= length rest)%nat ->
              exists s', ended s' /\
                forall fuel', (S (length rest) < S fuel')%nat ->
                              menu_loop fuel' s2 = Some s').
    { intros s2 H2. destruct (IH s2 ltac:(lia)) as (s' & He & Hs').
      exists s'. split; [assumption|]. intros fuel' Hf. apply Hs'. lia. }
    assert (Hstep : forall s', ended s' ->
              (forall fuel', (S (length rest) < S fuel')%nat ->
                 (let s1 := after_choice s rest in
                  if String.eqb (text l) "1" then menu_loop fuel' (convert_dialog s1)
                  else if String.eqb (text l) "2" then
                    menu_loop fuel' (show (display_rates (obj (store s1))) s1)
                  else if String.eqb (text l) "3" then
                    match call update_from_api s1 with
                    | (Ok _, s2) => menu_loop fuel' s2
                    | (Raise e, s2) => Some (show [Fatal (Some e)] s2)
                    end
                  else if String.eqb (text l) "4" then
                    Some (show [Said msg_goodbye] s1)
                  else menu_loop fuel' (show [Said msg_invalid_choice] s1))
                 = Some s') ->
              exists s'', ended s'' /\
                forall fuel', (length (l :: rest) < fuel')%nat ->
                              menu_loop fuel' s = Some s'').
    { intros s' He Hs'. exists s'. split; [assumption|].
      intros [|fuel'] Hf; [cbn in Hf; lia|].
      rewrite (menu_loop_turn _ _ _ _ Hin). apply Hs'. cbn in Hf. lia. }
    cbv zeta in Hstep.
    destruct (String.eqb (text l) "1").
    { pose proof (convert_dialog_shorter (after_choice s rest)) as Hd.
      destruct (Hnext (convert_dialog (after_choice s rest)) Hd) as (s' & He & Hs').
      now apply (Hstep s'). }
    destruct (String.eqb (text l) "2").
    { destruct (Hnext (show (display_rates (obj (store (after_choice s rest))))
                         (after_choice s rest)) (le_n _)) as (s' & He & Hs').
      now apply (Hstep s'). }
    destruct (String.eqb (text l) "3").
    { pose proof (call_frame update_from_api (after_choice s rest)) as (Hc & _).
      destruct (call update_from_api (after_choice s rest)) as [[u|e] s2].
      - cbn [snd] in Hc.
        destruct (Hnext s2 ltac:(rewrite Hc; apply le_n)) as (s' & He & Hs').
        now apply (Hstep s').
      - apply (Hstep (show [Fatal (Some e)] s2)); [apply ended_show; eauto|].
        reflexivity. }
    destruct (String.eqb (text l) "4").
    { apply (Hstep (show [Said msg_goodbye] (after_choice s rest)));
        [apply ended_show; eauto|reflexivity]. }
    destruct (Hnext (show [Said msg_invalid_choice] (after_choice s rest)) (le_n _))
      as (s' & He & Hs').
    now apply (Hstep s').
Qed.

(** X14.  [main] ends on every finite list of typed lines, in every
    world: with the fuel it takes, and with any larger one, the loop
    reaches a last session, whose final line is the goodbye or the message
    of the outer handler (which also takes the end of the input). *)
Theorem main_ends inputs w :
  exists s', main inputs w = Some s' /\ ended s' /\
    forall fuel, (length inputs < fuel)%nat -> main_with fuel inputs w = Some s'.
Proof.
  unfold main, main_with.
  pose proof (call_frame __init__ {| stdin := inputs; store := w; screen := [] |})
    as (Hin & _).
  destruct (call __init__ {| stdin := inputs; store := w; screen := [] |})
    as [[u|e] s]; cbn [snd stdin] in Hin.
  - destruct (menu_loop_ends (S (length inputs)) s ltac:(rewrite Hin; lia))
      as (s' & He & Hs').
    exists s'. split; [apply Hs'; rewrite Hin; lia|]. split; [assumption|].
    intros fuel Hf. apply Hs'. now rewrite Hin.
  - eexists. split; [reflexivity|]. split; [apply ended_show; eauto|]. reflexivity.
Qed.

Lemma menu_loop_no_refresh fuel : forall s s',
  no_refresh (stdin s) -> menu_loop fuel s = Some s' -> store s' = store s.
Proof.
  induction fuel as [|fuel IH]; intros s s' Hno Hs'; [discriminate|].
  destruct (stdin s) as [|l rest] eqn:Hin.
  - rewrite menu_loop_eof in Hs' by assumption. now injection Hs' as <-.
  - rewrite (menu_loop_turn _ _ _ _ Hin) in Hs'. cbv zeta in Hs'.
    assert (Hrest : no_refresh rest).
    { intros x Hx. apply Hno. now right. }
    assert (Hl : String.eqb (text l) "3" = false).
    { apply String.eqb_neq, Hno. left. }
    rewrite Hl in Hs'.
    destruct (String.eqb (text l) "1").
    { apply IH in Hs'; [|now apply convert_dialog_no_refresh].
      rewrite Hs'.
      destruct (convert_dialog_rest (after_choice s rest)) as [E _]. exact E. }
    destruct (String.eqb (text l) "2").
    { now apply IH in Hs'. }
    destruct (String.eqb (text l) "4").
    { now injection Hs' as <-. }
    now apply IH in Hs'.
Qed.

(** X15.  A session in which no typed line is "3" leaves the world of the
    converter exactly as the constructor left it: no conversion, display,
    wrong choice or input error sends a request, touches the cache file
    or changes the table. *)
Theorem main_without_refresh inputs w s' :
  no_refresh inputs ->
  main inputs w = Some s' ->
  store s' = snd (__init__ w).
Proof.
  intros Hno. unfold main, main_with.
  pose proof (call_frame __init__ {| stdin := inputs; store := w; screen := [] |})
    as (Hin & Hst & _).
  destruct (call __init__ {| stdin := inputs; store := w; screen := [] |})
    as [[u|e] s]; cbn [snd stdin store] in Hin, Hst.
  - intros Hs'. apply menu_loop_no_refresh in Hs'; [congruence|].
    now rewrite Hin.
  - intros [= <-]. exact Hst.
Qed.

Lemma main_without_refresh_witness :
  let w := at_start (cached todays_rates 0) offline 5 in
  option_map store
    (main [word "1"; number "10" 10; word "usd"; word "eur"; word "2"; word "9"]
       w)
  = Some (snd (__init__ w)).
Proof.
  cbv zeta.
  destruct (main
              [word "1"; number "10" 10; word "usd"; word "eur"; word "2"; word "9"]
              (at_start (cached todays_rates 0) offline 5)) as [s'|] eqn:Hs'.
  - cbn [option_map]. f_equal.
    apply (main_without_refresh _ _ _) in Hs'; [exact Hs'|].
    intros l Hl.
    repeat (apply elem_of_cons in Hl as [->|Hl]; [discriminate|]).
    now apply elem_of_nil in Hl.
  - vm_compute in Hs'. discriminate.
Defined.

(** X16.  An exception that escapes [update_from_api] (a [KeyError] from
    an answer without the expected key, an [OSError] from the cache file)
    ends the session at once: it is shown by the outer handler, and the
    lines typed after the "3" are never read.  A refresh that returns
    lets the loop go on. *)
Theorem refresh_exception_ends_session fuel s l rest :
  stdin s = l :: rest -> text l = "3" ->
  (forall e, fst (update_from_api (store s)) = Raise e ->
     exists s', menu_loop (S fuel) s = Some s' /\
       stdin s' = rest /\
       store s' = snd (update_from_api (store s)) /\
       last (screen s') = Some (Fatal (Some e))) /\
  (fst (update_from_api (store s)) = Ok tt ->
     menu_loop (S fuel) s
     = menu_loop fuel (snd (call update_from_api (after_choice s rest)))).
Proof.
  intros Hin Hl. rewrite (menu_loop_turn _ _ _ _ Hin). cbv zeta.
  rewrite Hl. cbn [String.eqb Ascii.eqb Bool.eqb andb].
  pose proof (call_frame update_from_api (after_choice s rest)) as (Hi & Hst & Hr).
  cbn [after_choice store stdin] in Hi, Hst, Hr.
  destruct (call update_from_api (after_choice s rest)) as [[u|e'] s2];
    cbn [fst snd] in *.
  - split; [intros e He; congruence|reflexivity].
  - split; [|intros He; congruence].
    intros e He. assert (e' = e) as -> by congruence.
    eexists. split; [reflexivity|]. cbn. repeat split; auto using last_snoc.
Qed.

Lemma refresh_exception_ends_session_witness :
  let s := {| stdin := [word "3"; word "2"; word "4"];
              store := at_start NoFile refusing 0; screen := [] |} in
  exists s', menu_loop 4 s = Some s' /\
    stdin s' = [word "2"; word "4"] /\
    last (screen s') = Some (Fatal (Some (KeyError "supported_codes"))).
Proof.
  cbv zeta.
  destruct (proj1 (refresh_exception_ends_session 3
                     {| stdin := [word "3"; word "2"; word "4"];
                        store := at_start NoFile refusing 0; screen := [] |}
                     (word "3") [word "2"; word "4"] eq_refl eq_refl)
                  (KeyError "supported_codes") eq_refl)
    as (s' & H1 & H2 & _ & H4).
  exists s'. auto.
Defined.

End Session.

(** ** Invariants of the tables through a session *)

Section SessionInvariant.

Variable P : gmap string float -> Prop.
Hypothesis P_default : P default_rates.



End SessionInvariant.

Section SessionWitness.


End SessionWitness.
